(** * The buzz producer (producers/kafka_producer_strickland.py)

    A shallow embedding of the producer script: the two configuration
    getters, the emission loop [generate_messages] and the orchestrator
    [main].  The script is a sequence of calls into the outside world (the
    environment, the logger, the broker client, the clock), so the embedding
    is a small state-and-error monad that records every call in a trace and
    takes the answer of every call that can fail from a [world]. *)

From Stdlib Require Import ZArith Lia List Ascii String DecimalString.
From stdpp Require Import base decidable option list strings gmap.

Local Open Scope Z_scope.

(** ** Python values and exceptions *)

(** The two kinds of value [os.getenv] hands back here: the text of a
    variable, or the default that was passed (text or integer). *)
Inductive pyval :=
  | PStr (s : string)
  | PInt (z : Z).

#[global] Instance pyval_eq_dec : EqDecision pyval.
Proof. solve_decision. Defined.

(** The part of the exception hierarchy the script depends on:
    [KeyboardInterrupt] and [SystemExit] derive from [BaseException] only,
    every other failure is an [Exception] (its class name and [str(e)]). *)
Inductive exn :=
  | KeyboardInterrupt
  | SystemExit (code : Z)
  | Exception (cls : string) (text : string).

#[global] Instance exn_eq_dec : EqDecision exn.
Proof. solve_decision. Defined.

(** ** [str] and [int] on the values above *)

Module Py.

(** [str(n)] for an integer. *)
Definition str_of_int (z : Z) : string :=
  NilZero.string_of_int (Z.to_int z).

(** [str(v)], as an f-string field formats it. *)
Definition str (v : pyval) : string :=
  match v with
  | PStr s => s
  | PInt z => str_of_int z
  end.

Definition code (c : ascii) : nat := nat_of_ascii c.

(** The characters [int] skips around a literal: tab, line feed, vertical
    tab, form feed, carriage return and space. *)
Definition is_space (c : ascii) : bool :=
  ((9 <=? code c)%nat && (code c <=? 13)%nat) || (code c =? 32)%nat.

Definition digit_of (c : ascii) : option Z :=
  if ((48 <=? code c)%nat && (code c <=? 57)%nat)
  then Some (Z.of_nat (code c - 48))
  else None.

Fixpoint lstrip (cs : list ascii) : list ascii :=
  match cs with
  | c :: cs' => if is_space c then lstrip cs' else cs
  | [] => []
  end.

Definition strip (cs : list ascii) : list ascii :=
  rev (lstrip (rev (lstrip cs))).

(** Decimal digits, where single underscores may separate two digits.
    [after_digit] tells whether the previous character was a digit. *)
Fixpoint digits (acc : Z) (after_digit : bool) (cs : list ascii) : option Z :=
  match cs with
  | [] => if after_digit then Some acc else None
  | c :: cs' =>
      if Ascii.eqb c "_"%char
      then (if after_digit then digits acc false cs' else None)
      else match digit_of c with
           | Some d => digits (10 * acc + d) true cs'
           | None => None
           end
  end.

Definition signed (cs : list ascii) : option Z :=
  match cs with
  | c :: cs' =>
      if Ascii.eqb c "-"%char then Z.opp <$> digits 0 false cs'
      else if Ascii.eqb c "+"%char then digits 0 false cs'
      else digits 0 false cs
  | [] => None
  end.

(** [int(s)] in base 10 on a text; [None] stands for [ValueError].
    Texts are byte strings here, and the definition is that of [int] on
    ASCII texts: on those it rejects exactly what [int] rejects, and what
    it reads [int] reads as the same number.  The non-ASCII digits and
    spaces that Python also accepts are outside it (see [is_ascii]), and so
    is the interpreter's configurable limit on the number of digits, which
    only makes [int] reject more. *)
Definition int_of_str (s : string) : option Z :=
  signed (strip (list_ascii_of_string s)).

(** The texts on which [int_of_str] is the [int] of Python: every
    character is an ASCII one. *)
Definition is_ascii (s : string) : bool :=
  forallb (fun c => (code c <? 128)%nat) (list_ascii_of_string s).

Definition hex_digit (n : nat) : ascii :=
  ascii_of_nat (if (n <? 10)%nat then 48 + n else 87 + n).

Definition dquote : ascii := ascii_of_nat 34.

Definition has_char (c : ascii) (cs : list ascii) : bool :=
  existsb (Ascii.eqb c) cs.

Definition escape (quote : ascii) (c : ascii) : list ascii :=
  if Ascii.eqb c quote || Ascii.eqb c "\"%char then ["\"%char; c]
  else if (code c =? 9)%nat then ["\"; "t"]%char
  else if (code c =? 10)%nat then ["\"; "n"]%char
  else if (code c =? 13)%nat then ["\"; "r"]%char
  else if (code c <? 32)%nat || (code c =? 127)%nat
       then ["\"%char; "x"%char; hex_digit (code c / 16); hex_digit (code c mod 16)]
  else [c].

(** [repr(s)] of a text. *)
Definition repr (s : string) : list ascii :=
  let cs := list_ascii_of_string s in
  let quote :=
    if has_char "'"%char cs && negb (has_char dquote cs)
    then dquote else "'"%char in
  quote :: flat_map (escape quote) cs ++ [quote].

(** The [ValueError] of [int(s)]; its message shows at most 200 characters
    of [repr(s)]. *)
Definition invalid_literal (s : string) : exn :=
  Exception "ValueError"
    ("invalid literal for int() with base 10: "
     +:+ string_of_list_ascii (take 200 (repr s))).

End Py.

(** ** The outside world: events, outcomes and the trace *)

(** A producer object, as [create_kafka_producer] returns it; every such
    object counts as true in [if not producer], only [None] does not. *)
Definition handle := nat.

(** Severity of a log line. *)
Inductive level := INFO | WARNING | ERROR.

#[global] Instance level_eq_dec : EqDecision level.
Proof. solve_decision. Defined.

(** One call into the outside world, with its arguments. *)
Inductive event :=
  | ELog (lvl : level) (text : string)
  | ELoadDotenv
  | EVerifyServices
  | EGetenv (key : string)
  | ECreateProducer
  | ECreateTopic (topic : pyval)
  | ESend (producer : handle) (topic : pyval) (value : string)
  | ESleep (secs : Z)
  | EClose (producer : handle).

#[global] Instance event_eq_dec : EqDecision event.
Proof. solve_decision. Defined.

(** How a call that can fail ends. *)
Inductive outcome (A : Type) :=
  | Returns (a : A)
  | Raises (e : exn).
Arguments Returns {A} a.
Arguments Raises {A} e.

(** Everything the script does not decide itself.  The helpers of
    utils.utils_producer and the broker client are not part of the script:
    their answers are taken from here.  [dotenv_file] holds the variables
    [load_dotenv()] finds to load in this run: none when there is no .env
    file or when loading is switched off.  [call_outcome i] is the way the
    broker or clock call recorded at position [i] of the trace ends
    ([producer.send], [time.sleep], [producer.close]); an interrupt from
    the keyboard is the outcome [Raises KeyboardInterrupt] of the call it
    arrives in, and a wait the clock refuses (a negative time) is a
    [time.sleep] that raises.  Nothing restricts a world: what is proved
    for all worlds holds for the real one. *)
Record world := {
  dotenv_file : gmap string string;
  verify_services_outcome : outcome unit;
  create_kafka_producer_outcome : outcome (option handle);
  create_kafka_topic_outcome : pyval -> outcome unit;
  call_outcome : nat -> outcome unit
}.

(** The process: [os.environ] and the calls made so far, oldest first. *)
Record state := {
  environ : gmap string string;
  trace : list event
}.

Definition record (ev : event) (s : state) : state :=
  {| environ := environ s; trace := trace s ++ [ev] |}.

(** ** The monad: state, exceptions, and fuel for the endless loop *)

Inductive res (A : Type) :=
  | Ret (a : A)
  | Raise (e : exn)
  | OutOfFuel.
Arguments Ret {A} a.
Arguments Raise {A} e.
Arguments OutOfFuel {A}.

Definition M (A : Type) : Type := state -> res A * state.

Definition ret {A} (a : A) : M A := fun s => (Ret a, s).

Definition raise {A} (e : exn) : M A := fun s => (Raise e, s).

Definition bind {A B} (m : M A) (f : A -> M B) : M B :=
  fun s =>
    match m s with
    | (Ret a, s') => f a s'
    | (Raise e, s') => (Raise e, s')
    | (OutOfFuel, s') => (OutOfFuel, s')
    end.

Notation "x <- m ;; k" := (bind m (fun x => k))
  (at level 100, m at next level, right associativity).
Notation "m ;; k" := (bind m (fun _ => k))
  (at level 100, right associativity).

(** [try: body except ...: handler].  [handler e] is [None] when no
    [except] clause matches [e], which then goes on upwards. *)
Definition try_except {A} (body : M A) (handler : exn -> option (M A)) : M A :=
  fun s =>
    match body s with
    | (Raise e, s') =>
        match handler e with
        | Some h => h s'
        | None => (Raise e, s')
        end
    | other => other
    end.

(** [try: body finally: cleanup].  The cleanup runs however the body
    ends; what the cleanup raises replaces the body's result. *)
Definition try_finally {A} (body : M A) (cleanup : M unit) : M A :=
  fun s =>
    match body s with
    | (OutOfFuel, s') => (OutOfFuel, s')
    | (r, s') =>
        match cleanup s' with
        | (Ret _, s'') => (r, s'')
        | (Raise e, s'') => (Raise e, s'')
        | (OutOfFuel, s'') => (OutOfFuel, s'')
        end
    end.

(** [for x in l: body x] *)
Fixpoint for_each {A} (l : list A) (body : A -> M unit) : M unit :=
  match l with
  | [] => ret tt
  | x :: l' => body x ;; for_each l' body
  end.

(** [while True: body], cut after [fuel] rounds. *)
Fixpoint while_true (fuel : nat) (body : M unit) : M unit :=
  match fuel with
  | O => fun s => (OutOfFuel, s)
  | S fuel' => body ;; while_true fuel' body
  end.

(** A call that cannot fail in the model. *)
Definition emit (ev : event) : M unit :=
  fun s => (Ret tt, record ev s).

(** A call whose end the world decides. *)
Definition call {A} (ev : event) (o : outcome A) : M A :=
  fun s =>
    (match o with Returns a => Ret a | Raises e => Raise e end, record ev s).

(** ** The primitives the script calls *)

Section Script.

Variable w : world.

(** Modelled from the spec: utils.utils_logger is missing; its logger
    writes one log line of the given severity per call, here at
    informational severity. *)
Definition logger_info (text : string) : M unit := emit (ELog INFO text).

(** Modelled from the spec: utils.utils_logger is missing; a log line at
    warning severity. *)
Definition logger_warning (text : string) : M unit := emit (ELog WARNING text).

(** Modelled from the spec: utils.utils_logger is missing; a log line at
    error severity. *)
Definition logger_error (text : string) : M unit := emit (ELog ERROR text).

(** [load_dotenv()], called without arguments: the variables the world
    has it load enter [os.environ], those already set keep their value.
    Whether there is anything to load is the world's matter, not the
    script's. *)
Definition load_dotenv : M unit :=
  fun s =>
    (Ret tt,
     {| environ := environ s ∪ dotenv_file w;
        trace := trace s ++ [ELoadDotenv] |}).

(** [os.getenv(key, default)] *)
Definition os_getenv (key : string) (default : pyval) : M pyval :=
  fun s =>
    (Ret (match environ s !! key with
          | Some v => PStr v
          | None => default
          end),
     record (EGetenv key) s).

(** [int(v)] *)
Definition int (v : pyval) : M Z :=
  match v with
  | PInt z => ret z
  | PStr s =>
      match Py.int_of_str s with
      | Some z => ret z
      | None => raise (Py.invalid_literal s)
      end
  end.

(** [sys.exit(code)] *)
Definition sys_exit {A} (code : Z) : M A := raise (SystemExit code).

(** [verify_services()] of utils.utils_producer: the world decides. *)
Definition verify_services : M unit :=
  call EVerifyServices (verify_services_outcome w).

(** [create_kafka_producer()] of utils.utils_producer: a producer, [None],
    or an exception, as the world decides. *)
Definition create_kafka_producer : M (option handle) :=
  call ECreateProducer (create_kafka_producer_outcome w).

(** [create_kafka_topic(topic)] of utils.utils_producer: the world decides. *)
Definition create_kafka_topic (topic : pyval) : M unit :=
  call (ECreateTopic topic) (create_kafka_topic_outcome w topic).

(** A broker or clock call: recorded, and ended as the world says for its
    position in the trace. *)
Definition external (ev : event) : M unit :=
  fun s => call ev (call_outcome w (length (trace s))) s.

Definition producer_send (producer : handle) (topic : pyval) (value : string) : M unit :=
  external (ESend producer topic value).

Definition producer_close (producer : handle) : M unit :=
  external (EClose producer).

Definition time_sleep (secs : Z) : M unit :=
  external (ESleep secs).

(** ** Getter functions for the .env variables *)

Definition get_kafka_topic : M pyval :=
  topic <- os_getenv "KAFKA_TOPIC" (PStr "buzz_topic") ;;
  logger_info ("Kafka topic: " +:+ Py.str topic) ;;
  ret topic.

Definition get_message_interval : M Z :=
  v <- os_getenv "MESSAGE_INTERVAL_SECONDS" (PInt 10) ;;
  interval <- int v ;;
  logger_info ("Message interval: " +:+ Py.str_of_int interval +:+ " seconds") ;;
  ret interval.

(** ** Message generator *)

(** The fixed list of buzz messages, in the order of the script. *)
Definition string_list : list string := [
  "This doesn’t make any sense";
  "I don’t get it";
  "This is so confusing";
  "I give up";
  "I can’t do this";
  "Wait, what just happened?";
  "I thought I understood, but I don’t";
  "This problem is impossible";
  "Why is this so hard?";
  "Nothing is clicking";
  "I need help";
  "Can you explain this again?";
  "I’m totally lost";
  "This is frustrating";
  "My brain hurts";
  "I’m stuck";
  "I don’t know where to start";
  "I keep messing up";
  "I hate this problem";
  "I’ve tried everything";
  "This is taking forever";
  "Why can’t I figure this out?";
  "I’m going in circles";
  "I keep getting the wrong answer";
  "This is the worst";
  "I don’t like math";
  "I can’t focus";
  "I wish I was done";
  "This is boring";
  "How many problems are left?";
  "Why do we even need to learn this?";
  "This is dragging on";
  "I’d rather be doing anything else";
  "This is so repetitive";
  "I’m tired of this";
  "Can we just stop?";
  "I’m over it";
  "Does this even matter?";
  "This is too much";
  "I can’t believe this is homework";
  "I’ll never use this in real life";
  "This was tough at first but now I think I’ve got it";
  "Oh! Now it makes sense";
  "Wait, I get it now";
  "This is actually kind of fun";
  "I solved it!";
  "I can’t believe I did it!";
  "That wasn’t so bad";
  "Yes! I got it right";
  "I’m on a roll";
  "This is clicking now";
  "This isn’t as hard as I thought";
  "Okay, I think I understand";
  "I’m getting the hang of this";
  "I can do this!";
  "I finally figured it out";
  "I feel smart";
  "This problem makes sense now";
  "I knew I could do it";
  "This is easier than it looked";
  "I like this kind of problem";
  "I think I’m improving";
  "I got the same answer twice, so it must be right";
  "Yes, that worked!";
  "This step was the key";
  "It’s actually satisfying when it works";
  "This is kind of cool";
  "I’m proud of myself";
  "I actually like this problem";
  "This isn’t so scary anymore";
  "Okay, I can explain it to someone else now";
  "I’m in the zone";
  "I’m working faster now";
  "I can focus right now";
  "I like figuring this out";
  "This is keeping me busy";
  "I feel productive";
  "I’m solving these one after another";
  "I just need to keep going";
  "I’m almost finished";
  "I can see the pattern now";
  "I’m starting to enjoy this";
  "I’m determined to finish";
  "This is actually interesting";
  "I just need to double-check my steps";
  "I’m noticing my mistakes and fixing them";
  "This problem is like a puzzle";
  "I just found the trick";
  "This part is easy";
  "I see what the teacher meant now";
  "I’m faster than I was before";
  "I’m focused right now";
  "This feels like progress";
  "I’m learning as I go";
  "This is kind of satisfying";
  "I know what to do next";
  "I just need to be careful";
  "I’ve got momentum";
  "I can finish strong";
  "This feels good";
  "I actually get it now";
  "I’m proud of my work";
  "I can’t wait to check my answer"
].

(** The body of the [for] loop, for one message. *)
Definition send_one (producer : handle) (topic : pyval) (interval_secs : Z)
    (message : string) : M unit :=
  logger_info ("Generated buzz: " +:+ message) ;;
  producer_send producer topic message ;;
  logger_info ("Sent message to topic '" +:+ Py.str topic +:+ "': " +:+ message) ;;
  time_sleep interval_secs.

(** The body of the [try]: the endless walk over the list. *)
Definition emission (messages : list string) (fuel : nat)
    (producer : handle) (topic : pyval) (interval_secs : Z) : M unit :=
  while_true fuel (for_each messages (send_one producer topic interval_secs)).

(** The two [except] clauses of the loop. *)
Definition on_exception (e : exn) : option (M unit) :=
  match e with
  | KeyboardInterrupt => Some (logger_warning "Producer interrupted by user.")
  | Exception _ text => Some (logger_error ("Error in message generation: " +:+ text))
  | SystemExit _ => None
  end.

(** The [finally] clause of the loop. *)
Definition cleanup (producer : handle) : M unit :=
  producer_close producer ;;
  logger_info "Kafka producer closed.".

(** [generate_messages] over an arbitrary message list; [fuel] bounds
    the number of passes of the [while True] that are followed. *)
Definition generate_messages_over (messages : list string) (fuel : nat)
    (producer : handle) (topic : pyval) (interval_secs : Z) : M unit :=
  try_finally
    (try_except (emission messages fuel producer topic interval_secs) on_exception)
    (cleanup producer).

Definition generate_messages : nat -> handle -> pyval -> Z -> M unit :=
  generate_messages_over string_list.

(** ** Main function *)

(** The [except Exception] clause around the topic creation. *)
Definition on_topic_failure (topic : pyval) (e : exn) : option (M unit) :=
  match e with
  | Exception _ text =>
      Some (logger_error ("Failed to create or verify topic '" +:+ Py.str topic
                          +:+ "': " +:+ text) ;;
            sys_exit 1)
  | _ => None
  end.

Definition main (fuel : nat) : M unit :=
  logger_info "START producer." ;;
  logger_info "Loading environment variables from .env file..." ;;
  load_dotenv ;;
  verify_services ;;
  topic <- get_kafka_topic ;;
  interval_secs <- get_message_interval ;;
  created <- create_kafka_producer ;;
  producer <- match created with
              | Some producer => ret producer
              | None =>
                  logger_error "Failed to create Kafka producer. Exiting..." ;;
                  sys_exit 3
              end ;;
  try_except
    (create_kafka_topic topic ;;
     logger_info ("Kafka topic '" +:+ Py.str topic +:+ "' is ready."))
    (on_topic_failure topic) ;;
  logger_info ("Starting message production to topic '" +:+ Py.str topic +:+ "'...") ;;
  generate_messages fuel producer topic interval_secs ;;
  logger_info "END producer.".

End Script.

(** The process starts [main] with an empty trace. *)
Definition start (env : gmap string string) : state :=
  {| environ := env; trace := [] |}.

(** ** Reading a trace *)

(** The value a call published, if it is a [producer.send]. *)
Definition sent_value (ev : event) : option string :=
  match ev with
  | ESend _ _ value => Some value
  | _ => None
  end.

(** The values published, in order. *)
Definition sent (evs : list event) : list string := omap sent_value evs.

Definition is_close (ev : event) : bool :=
  match ev with
  | EClose _ => true
  | _ => false
  end.

(** The [producer.close] calls, in order. *)
Definition closes (evs : list event) : list event := List.filter is_close evs.

Definition is_send_or_sleep (ev : event) : bool :=
  match ev with
  | ESend _ _ _ | ESleep _ => true
  | _ => false
  end.

(** The broker and clock calls of the loop body, without the log lines. *)
Definition sends_and_sleeps (evs : list event) : list event :=
  List.filter is_send_or_sleep evs.

(** The events [main] or the loop added to the trace of [s]. *)
Definition since (s s' : state) : list event :=
  drop (length (trace s)) (trace s').

(** What one undisturbed round of the [for] body leaves in the trace. *)
Definition block (producer : handle) (topic : pyval) (interval_secs : Z)
    (message : string) : list event :=
  [ ELog INFO ("Generated buzz: " +:+ message);
    ESend producer topic message;
    ELog INFO ("Sent message to topic '" +:+ Py.str topic +:+ "': " +:+ message);
    ESleep interval_secs ].

(** [n] passes over the list, laid end to end. *)
Fixpoint cycle (n : nat) (messages : list string) : list string :=
  match n with
  | O => []
  | S n' => messages ++ cycle n' messages
  end.

(** A world in which no broker or clock call ever fails or is interrupted. *)
Definition failure_free (w : world) : Prop :=
  forall i, call_outcome w i = Returns tt.

(** ** Worlds and environments used in the examples *)

(** Everything works. *)
Definition calm : world :=
  {| dotenv_file := ∅;
     verify_services_outcome := Returns tt;
     create_kafka_producer_outcome := Returns (Some 1%nat);
     create_kafka_topic_outcome := fun _ => Returns tt;
     call_outcome := fun _ => Returns tt |}.

(** Everything works, except that the call at position [k] raises [e]. *)
Definition failing_at (k : nat) (e : exn) : world :=
  {| dotenv_file := ∅;
     verify_services_outcome := Returns tt;
     create_kafka_producer_outcome := Returns (Some 1%nat);
     create_kafka_topic_outcome := fun _ => Returns tt;
     call_outcome := fun i => if (i =? k)%nat then Raises e else Returns tt |}.

(** [create_kafka_producer] comes back with [None]. *)
Definition no_producer : world :=
  {| dotenv_file := ∅;
     verify_services_outcome := Returns tt;
     create_kafka_producer_outcome := Returns None;
     create_kafka_topic_outcome := fun _ => Returns tt;
     call_outcome := fun _ => Returns tt |}.

(** [create_kafka_topic] raises. *)
Definition no_topic : world :=
  {| dotenv_file := ∅;
     verify_services_outcome := Returns tt;
     create_kafka_producer_outcome := Returns (Some 1%nat);
     create_kafka_topic_outcome :=
       fun _ => Raises (Exception "NoBrokersAvailable" "NoBrokersAvailable");
     call_outcome := fun _ => Returns tt |}.

Definition abc : list string := ["a"; "b"; "c"].

Definition interval_env (text : string) : gmap string string :=
  {[ "MESSAGE_INTERVAL_SECONDS" := text ]}.

(** The second send is interrupted, and the close that follows fails. *)
Definition interrupted_then_close_fails : world :=
  {| dotenv_file := ∅;
     verify_services_outcome := Returns tt;
     create_kafka_producer_outcome := Returns (Some 1%nat);
     create_kafka_topic_outcome := fun _ => Returns tt;
     call_outcome := fun i =>
       if (i =? 5)%nat then Raises KeyboardInterrupt
       else if (i =? 7)%nat then Raises (Exception "KafkaError" "close failed")
       else Returns tt |}.

Definition timed_out : exn := Exception "KafkaTimeoutError" "timed out".

(** The state in which the second send of a run over [abc] has failed. *)
Definition after_failed_send : state :=
  {| environ := ∅;
     trace := block 1%nat (PStr "buzz_topic") 10 "a"
              ++ take 2 (block 1%nat (PStr "buzz_topic") 10 "b") |}.

(** ** The pure content of the getters and the fixed parts of [main]'s trace *)

(** What [get_kafka_topic] hands back in the environment [env]. *)
Definition resolved_topic (env : gmap string string) : pyval :=
  match env !! "KAFKA_TOPIC" with
  | Some v => PStr v
  | None => PStr "buzz_topic"
  end.

(** How [get_message_interval] ends in the environment [env]. *)
Definition resolved_interval (env : gmap string string) : outcome Z :=
  match env !! "MESSAGE_INTERVAL_SECONDS" with
  | Some v =>
      match Py.int_of_str v with
      | Some z => Returns z
      | None => Raises (Py.invalid_literal v)
      end
  | None => Returns 10
  end.

(** The first four calls of [main]. *)
Definition boot : list event :=
  [ ELog INFO "START producer.";
    ELog INFO "Loading environment variables from .env file...";
    ELoadDotenv;
    EVerifyServices ].

(** The calls of [get_kafka_topic] and the first call of
    [get_message_interval]. *)
Definition config_events (topic : pyval) : list event :=
  [ EGetenv "KAFKA_TOPIC";
    ELog INFO ("Kafka topic: " +:+ Py.str topic);
    EGetenv "MESSAGE_INTERVAL_SECONDS" ].

(** The trace of [main] up to and including the producer acquisition. *)
Definition upto_producer (topic : pyval) (interval_secs : Z) : list event :=
  boot ++ config_events topic ++
  [ ELog INFO ("Message interval: " +:+ Py.str_of_int interval_secs +:+ " seconds");
    ECreateProducer ].

(** The trace of [main] up to the call of [generate_messages]. *)
Definition upto_loop (topic : pyval) (interval_secs : Z) : list event :=
  upto_producer topic interval_secs ++
  [ ECreateTopic topic;
    ELog INFO ("Kafka topic '" +:+ Py.str topic +:+ "' is ready.");
    ELog INFO ("Starting message production to topic '" +:+ Py.str topic +:+ "'...") ].

Definition is_getenv (ev : event) : bool :=
  match ev with
  | EGetenv _ => true
  | _ => false
  end.

Definition is_verify (ev : event) : bool :=
  match ev with
  | EVerifyServices => true
  | _ => false
  end.

Definition is_create_topic (ev : event) : bool :=
  match ev with
  | ECreateTopic _ => true
  | _ => false
  end.

(** Position of the first event that satisfies [p]. *)
Fixpoint first_index (p : event -> bool) (evs : list event) : option nat :=
  match evs with
  | [] => None
  | ev :: evs' => if p ev then Some O else S <$> first_index p evs'
  end.

(** Both kinds of event happen, and the first [p] comes before the first [q]. *)
Definition precedes (p q : event -> bool) (evs : list event) : bool :=
  match first_index p evs, first_index q evs with
  | Some i, Some j => (i <? j)%nat
  | _, _ => false
  end.

(** The calls [generate_messages] can make for a given producer, topic and
    interval. *)
Definition from_loop (producer : handle) (topic : pyval) (interval_secs : Z)
    (ev : event) : Prop :=
  match ev with
  | ELog _ _ => True
  | ESend p t _ => p = producer /\ t = topic
  | ESleep z => z = interval_secs
  | EClose p => p = producer
  | _ => False
  end.

Definition is_log (ev : event) : bool :=
  match ev with
  | ELog _ _ => true
  | _ => false
  end.

(** ** How the loop ends *)

(** Where an exception of the loop comes from: it is what the last call in
    the trace, a send or a wait, raised. *)
Definition raised_by_last_call (w : world) (s : state) (evs : list event)
    (e : exn) : Prop :=
  exists evs0 ev,
    evs = evs0 ++ [ev] /\ is_send_or_sleep ev = true /\
    call_outcome w (length (trace s ++ evs0)) = Raises e.

(** Every send and wait among [evs], the events added to the trace of
    [s], has returned. *)
Definition calls_returned (w : world) (s : state) (evs : list event) : Prop :=
  forall j ev,
    evs !! j = Some ev -> is_send_or_sleep ev = true ->
    call_outcome w (length (trace s) + j) = Returns tt.

(** How one pass over the list can end, and what it has added to the
    trace by then; [ideal] is the undisturbed pass. *)
Definition loop_end (w : world) (s : state) (ideal : list event) (r : res unit)
    (evs : list event) : Prop :=
  match r with
  | Ret _ => evs = ideal /\ calls_returned w s evs
  | Raise e => raised_by_last_call w s evs e
  | OutOfFuel => False
  end.

(** The endless loop never completes: it is cut by an exception or by the
    fuel. *)
Definition emission_end (w : world) (s : state) (ideal : list event)
    (r : res unit) (evs : list event) : Prop :=
  match r with
  | Ret _ => False
  | Raise e => raised_by_last_call w s evs e
  | OutOfFuel => evs = ideal /\ calls_returned w s evs
  end.

(** What the handlers and the cleanup add once the loop has been left
    with [e] in state [s1], and how [generate_messages] ends. *)
Definition epilogue (w : world) (producer : handle) (s1 : state) (e : exn)
    : res unit * list event :=
  let note :=
    match e with
    | KeyboardInterrupt => [ELog WARNING "Producer interrupted by user."]
    | Exception _ text => [ELog ERROR ("Error in message generation: " +:+ text)]
    | SystemExit _ => []
    end in
  let handled :=
    match e with
    | SystemExit _ => Raise e
    | _ => Ret tt
    end in
  match call_outcome w (length (trace s1 ++ note)) with
  | Returns _ =>
      (handled, note ++ [EClose producer; ELog INFO "Kafka producer closed."])
  | Raises e' => (Raise e', note ++ [EClose producer])
  end.

(** ** Further worlds used in the examples *)

(** The service check fails the way an exit request does. *)
Definition services_down : world :=
  {| dotenv_file := ∅;
     verify_services_outcome := Raises (SystemExit 2);
     create_kafka_producer_outcome := Returns (Some 1%nat);
     create_kafka_topic_outcome := fun _ => Returns tt;
     call_outcome := fun _ => Returns tt |}.

(** [create_kafka_producer] raises instead of returning. *)
Definition producer_raises : world :=
  {| dotenv_file := ∅;
     verify_services_outcome := Returns tt;
     create_kafka_producer_outcome := Raises (Exception "NoBrokersAvailable" "no brokers");
     create_kafka_topic_outcome := fun _ => Returns tt;
     call_outcome := fun _ => Returns tt |}.

(** [create_kafka_topic] ends in an exit request of its own. *)
Definition topic_exits : world :=
  {| dotenv_file := ∅;
     verify_services_outcome := Returns tt;
     create_kafka_producer_outcome := Returns (Some 1%nat);
     create_kafka_topic_outcome := fun _ => Raises (SystemExit 1);
     call_outcome := fun _ => Returns tt |}.

(** The state in which the first wait of a run over [abc] was interrupted. *)
Definition after_first_block : state :=
  {| environ := ∅; trace := block 1%nat (PStr "buzz_topic") 10 "a" |}.

(** The state in which the first send of a run over [abc] did not return. *)
Definition after_first_send : state :=
  {| environ := ∅; trace := take 2 (block 1%nat (PStr "buzz_topic") 10 "a") |}.

Definition is_create_producer (ev : event) : bool :=
  match ev with
  | ECreateProducer => true
  | _ => false
  end.

(** Every send and wait among [evs], the events added to the trace of
    [s], has returned, but perhaps the last call of all. *)
Definition earlier_calls_returned (w : world) (s : state) (evs : list event)
    : Prop :=
  forall j ev,
    evs !! j = Some ev -> is_send_or_sleep ev = true ->
    (S j < length evs)%nat ->
    call_outcome w (length (trace s) + j) = Returns tt.

(** * Properties *)

(** ** Steps of the monad and readings of the trace *)

(** Closes a goal whose hypothesis [H] puts an event into a list that
    does not hold it. *)
Ltac no_such_event H :=
  cbn in H; repeat (destruct H as [H|H]; [discriminate H|]); destruct H.

Lemma bind_ret {A B} (m : M A) (f : A -> M B) s a s' :
  m s = (Ret a, s') -> bind m f s = f a s'.
Proof. intros H. unfold bind. now rewrite H. Qed.

Lemma bind_raise {A B} (m : M A) (f : A -> M B) s e s' :
  m s = (Raise e, s') -> bind m f s = (Raise e, s').
Proof. intros H. unfold bind. now rewrite H. Qed.

Lemma state_eta s : {| environ := environ s; trace := trace s ++ [] |} = s.
Proof. destruct s; simpl. now rewrite app_nil_r. Qed.

Lemma since_app s s' evs : trace s' = trace s ++ evs -> since s s' = evs.
Proof. intros H. unfold since. rewrite H. apply drop_app_length. Qed.

Lemma sent_app evs evs' : sent (evs ++ evs') = sent evs ++ sent evs'.
Proof. apply omap_app. Qed.

Lemma closes_app evs evs' : closes (evs ++ evs') = closes evs ++ closes evs'.
Proof. apply List.filter_app. Qed.

Lemma sent_prefix evs evs' : evs `prefix_of` evs' -> sent evs `prefix_of` sent evs'.
Proof. intros [k ->]. rewrite sent_app. now exists (sent k). Qed.

Lemma closes_prefix_nil evs evs' :
  evs `prefix_of` evs' -> closes evs' = [] -> closes evs = [].
Proof.
  intros [k ->]. rewrite closes_app. intros H.
  now apply app_eq_nil in H.
Qed.

Lemma cycle_length n (messages : list string) :
  length (cycle n messages) = (n * length messages)%nat.
Proof. induction n as [|n IH]; simpl; [reflexivity|]. rewrite length_app. lia. Qed.

Lemma cycle_lookup n (messages : list string) i :
  (i < n * length messages)%nat ->
  cycle n messages !! i = messages !! (i mod length messages)%nat.
Proof.
  revert i. induction n as [|n IH]; intros i Hi; simpl in *; [lia|].
  destruct (decide (i < length messages)%nat) as [Hlt|Hge].
  - rewrite lookup_app_l by exact Hlt. now rewrite Nat.mod_small.
  - rewrite lookup_app_r by lia. rewrite IH by lia.
    f_equal.
    replace i with ((i - length messages) + 1 * length messages)%nat at 2 by lia.
    now rewrite Nat.Div0.mod_add.
Qed.

Lemma string_list_length : length string_list = 103%nat.
Proof. reflexivity. Qed.

(** ** Blocks of the undisturbed run *)

Section Blocks.

Variables (producer : handle) (topic : pyval) (interval_secs : Z).

Local Abbreviation blk := (block producer topic interval_secs).

Lemma sent_blocks messages : sent (flat_map blk messages) = messages.
Proof. induction messages as [|m l IH]; simpl; [reflexivity | now rewrite IH]. Qed.

Lemma closes_blocks messages : closes (flat_map blk messages) = [].
Proof. induction messages as [|m l IH]; simpl; [reflexivity | exact IH]. Qed.

Lemma sends_and_sleeps_blocks messages :
  sends_and_sleeps (flat_map blk messages)
  = flat_map (fun m => [ESend producer topic m; ESleep interval_secs]) messages.
Proof.
  induction messages as [|m l IH]; [reflexivity|].
  cbn [flat_map]. unfold sends_and_sleeps in *.
  rewrite List.filter_app, IH. reflexivity.
Qed.

Lemma blocks_send_then_sleep messages i p t m :
  flat_map blk messages !! i = Some (ESend p t m) ->
  flat_map blk messages !! (2 + i)%nat = Some (ESleep interval_secs).
Proof.
  revert i. induction messages as [|x l IH]; intros i Hi; [discriminate Hi|].
  cbn [flat_map] in *.
  destruct i as [|[|[|[|i]]]]; try discriminate Hi; [reflexivity|].
  exact (IH i Hi).
Qed.

Lemma blocks_odd_positions messages j :
  (2 * j + 1 < 4 * length messages)%nat ->
  exists ev, flat_map blk messages !! (2 * j + 1)%nat = Some ev /\
             is_send_or_sleep ev = true.
Proof.
  revert j. induction messages as [|m l IH]; intros j Hj; cbn [length] in Hj; [lia|].
  cbn [flat_map].
  destruct j as [|[|j]].
  - now eexists.
  - now eexists.
  - destruct (IH j) as (ev & Hev & Hkind); [lia|].
    exists ev. split; [|exact Hkind].
    replace (2 * S (S j) + 1)%nat with (4 + (2 * j + 1))%nat by lia.
    exact Hev.
Qed.

Lemma from_loop_blocks messages :
  Forall (from_loop producer topic interval_secs) (flat_map blk messages).
Proof.
  induction messages as [|m l IH]; cbn [flat_map]; [constructor|].
  apply Forall_app. split; [|exact IH].
  repeat constructor.
Qed.

End Blocks.

(** ** Runs of the loop, in any world *)

Section Loop.

Variable w : world.
Variables (producer : handle) (topic : pyval) (interval_secs : Z).

Local Abbreviation body := (send_one w producer topic interval_secs).
Local Abbreviation blk := (block producer topic interval_secs).

(** One round of the body, by the outcome of its two calls. *)
Lemma send_one_run message s :
  body message s =
    match call_outcome w (S (length (trace s))) with
    | Raises e =>
        (Raise e, {| environ := environ s;
                     trace := trace s ++ take 2 (blk message) |})
    | Returns _ =>
        (match call_outcome w (S (S (S (length (trace s))))) with
         | Returns _ => Ret tt
         | Raises e => Raise e
         end,
         {| environ := environ s; trace := trace s ++ blk message |})
    end.
Proof.
  unfold send_one, bind, logger_info, producer_send, time_sleep, external,
    emit, call, record; simpl.
  rewrite !length_app; simpl. rewrite !Nat.add_1_r.
  destruct (call_outcome w (S (length (trace s)))) as [[]|e]; simpl.
  - destruct (call_outcome w _) as [[]|e]; rewrite <- !app_assoc; reflexivity.
  - rewrite <- !app_assoc. reflexivity.
Qed.

Lemma calls_returned_nil s : calls_returned w s [].
Proof. intros j ev Hj. discriminate Hj. Qed.

Lemma calls_returned_app s evs1 evs2 :
  calls_returned w s evs1 ->
  calls_returned w {| environ := environ s; trace := trace s ++ evs1 |} evs2 ->
  calls_returned w s (evs1 ++ evs2).
Proof.
  intros H1 H2 j ev Hj Hev.
  destruct (decide (j < length evs1)%nat) as [Hlt|Hge].
  - rewrite lookup_app_l in Hj by exact Hlt. exact (H1 j ev Hj Hev).
  - rewrite lookup_app_r in Hj by lia.
    specialize (H2 _ _ Hj Hev). cbn [trace] in H2. rewrite length_app in H2.
    rewrite <- H2. f_equal. lia.
Qed.

Lemma calls_returned_block s m :
  call_outcome w (S (length (trace s))) = Returns tt ->
  call_outcome w (S (S (S (length (trace s))))) = Returns tt ->
  calls_returned w s (blk m).
Proof.
  intros Hsend Hsleep j ev Hj Hev.
  destruct j as [|[|[|[|j]]]]; cbn in Hj; try discriminate Hj;
    injection Hj as <-; try discriminate Hev.
  - rewrite <- Hsend. f_equal. lia.
  - rewrite <- Hsleep. f_equal. lia.
Qed.

Lemma raised_by_last_call_later s evs0 evs e :
  raised_by_last_call w {| environ := environ s; trace := trace s ++ evs0 |} evs e ->
  raised_by_last_call w s (evs0 ++ evs) e.
Proof.
  intros (pre & ev & -> & Hev & Hout). simpl in Hout.
  exists (evs0 ++ pre), ev. rewrite !app_assoc in *. auto.
Qed.

(** One pass over the list: it adds a prefix of the undisturbed pass, the
    whole of it when the pass completes. *)
Lemma for_each_run messages s :
  exists r evs,
    for_each messages body s =
      (r, {| environ := environ s; trace := trace s ++ evs |}) /\
    evs `prefix_of` flat_map blk messages /\
    loop_end w s (flat_map blk messages) r evs.
Proof.
  revert s. induction messages as [|m l IH]; intros s.
  - exists (Ret tt), []. simpl. unfold ret. rewrite state_eta.
    repeat split; [reflexivity | apply calls_returned_nil].
  - cbn [for_each]. unfold bind at 1. rewrite send_one_run.
    destruct (call_outcome w (S (length (trace s)))) as [[]|e] eqn:Hsend.
    + destruct (call_outcome w (S (S (S (length (trace s)))))) as [[]|e] eqn:Hsleep.
      * destruct (IH {| environ := environ s; trace := trace s ++ blk m |})
          as (r & evs & Hrun & Hpre & Hend).
        exists r, (blk m ++ evs). rewrite Hrun. cbn [environ trace].
        rewrite <- app_assoc. split; [reflexivity|]. split.
        -- cbn [flat_map]. now apply prefix_app.
        -- destruct r as [[]|e|]; cbn [loop_end] in *.
           ++ destruct Hend as [-> Hcalls]. split; [reflexivity|].
              apply calls_returned_app; [|exact Hcalls].
              now apply calls_returned_block.
           ++ now apply raised_by_last_call_later.
           ++ exact Hend.
      * exists (Raise e), (blk m). split; [reflexivity|]. split.
        -- cbn [flat_map]. now apply prefix_app_r.
        -- exists (take 3 (blk m)), (ESleep interval_secs).
           repeat split. rewrite length_app. simpl. rewrite <- Hsleep.
           f_equal. lia.
    + exists (Raise e), (take 2 (blk m)). split; [reflexivity|]. split.
      * cbn [flat_map]. apply prefix_app_r. now exists (drop 2 (blk m)).
      * exists (take 1 (blk m)), (ESend producer topic m).
        repeat split. rewrite length_app. simpl. rewrite <- Hsend.
        f_equal. lia.
Qed.

(** The body of the [try]: cut by an exception or by the fuel, it has
    added a prefix of the undisturbed run by then. *)
Lemma emission_run messages fuel s :
  exists r evs,
    emission w messages fuel producer topic interval_secs s =
      (r, {| environ := environ s; trace := trace s ++ evs |}) /\
    evs `prefix_of` flat_map blk (cycle fuel messages) /\
    emission_end w s (flat_map blk (cycle fuel messages)) r evs.
Proof.
  unfold emission. revert s. induction fuel as [|fuel IH]; intros s.
  - exists OutOfFuel, []. simpl. rewrite state_eta.
    repeat split; [reflexivity | apply calls_returned_nil].
  - cbn [while_true cycle]. rewrite flat_map_app.
    destruct (for_each_run messages s) as (r1 & evs1 & Hrun1 & Hpre1 & Hend1).
    destruct r1 as [[]|e|]; cbn [loop_end] in Hend1.
    + destruct Hend1 as [-> Hcalls1]. rewrite (bind_ret _ _ _ _ _ Hrun1).
      destruct (IH {| environ := environ s;
                      trace := trace s ++ flat_map blk messages |})
        as (r & evs & Hrun & Hpre & Hend).
      exists r, (flat_map blk messages ++ evs). rewrite Hrun. cbn [environ trace].
      rewrite <- app_assoc. split; [reflexivity|]. split.
      * now apply prefix_app.
      * destruct r as [[]|e|]; cbn [emission_end] in *.
        -- exact Hend.
        -- now apply raised_by_last_call_later.
        -- destruct Hend as [-> Hcalls]. split; [reflexivity|].
           now apply calls_returned_app.
    + rewrite (bind_raise _ _ _ _ _ Hrun1).
      exists (Raise e), evs1. split; [reflexivity|]. split.
      * now apply prefix_app_r.
      * exact Hend1.
    + destruct Hend1.
Qed.

(** Leaving the loop: the handler that matches, then the cleanup. *)
Lemma generate_messages_over_raise messages fuel s e s1 :
  emission w messages fuel producer topic interval_secs s = (Raise e, s1) ->
  generate_messages_over w messages fuel producer topic interval_secs s =
    (fst (epilogue w producer s1 e),
     {| environ := environ s1;
        trace := trace s1 ++ snd (epilogue w producer s1 e) |}).
Proof.
  intros Hloop.
  unfold generate_messages_over, try_finally, try_except, epilogue.
  rewrite Hloop.
  destruct e as [|c|cls text]; cbn [on_exception];
    unfold cleanup, bind, producer_close, external, call, logger_info,
      logger_warning, logger_error, emit, record; cbn [trace environ];
    rewrite ?app_nil_r;
    destruct (call_outcome w _) as [[]|e']; cbn [fst snd trace environ];
    rewrite <- ?app_assoc; reflexivity.
Qed.

Lemma generate_messages_over_out_of_fuel messages fuel s s1 :
  emission w messages fuel producer topic interval_secs s = (OutOfFuel, s1) ->
  generate_messages_over w messages fuel producer topic interval_secs s =
    (OutOfFuel, s1).
Proof.
  intros Hloop. unfold generate_messages_over, try_finally, try_except.
  now rewrite Hloop.
Qed.

Lemma epilogue_not_out_of_fuel s1 e : fst (epilogue w producer s1 e) <> OutOfFuel.
Proof.
  unfold epilogue. destruct (call_outcome w _) as [[]|e']; destruct e; discriminate.
Qed.

Lemma epilogue_sent s1 e : sent (snd (epilogue w producer s1 e)) = [].
Proof.
  unfold epilogue. destruct (call_outcome w _) as [[]|e']; destruct e; reflexivity.
Qed.

Lemma epilogue_closes s1 e :
  closes (snd (epilogue w producer s1 e)) = [EClose producer].
Proof.
  unfold epilogue. destruct (call_outcome w _) as [[]|e']; destruct e; reflexivity.
Qed.

Lemma from_loop_epilogue s1 e :
  Forall (from_loop producer topic interval_secs) (snd (epilogue w producer s1 e)).
Proof.
  unfold epilogue. destruct (call_outcome w _) as [[]|e']; destruct e;
    repeat constructor.
Qed.

(** Every run of [generate_messages]: either the fuel ends inside the
    loop, or some call of the loop raises and the epilogue follows. *)
Lemma generate_messages_over_run messages fuel s :
  exists r evs,
    generate_messages_over w messages fuel producer topic interval_secs s =
      (r, {| environ := environ s; trace := trace s ++ evs |}) /\
    ((r = OutOfFuel /\ evs = flat_map blk (cycle fuel messages) /\
      calls_returned w s evs) \/
     (exists loop_evs e,
        loop_evs `prefix_of` flat_map blk (cycle fuel messages) /\
        raised_by_last_call w s loop_evs e /\
        let s1 := {| environ := environ s; trace := trace s ++ loop_evs |} in
        r = fst (epilogue w producer s1 e) /\
        evs = loop_evs ++ snd (epilogue w producer s1 e))).
Proof.
  destruct (emission_run messages fuel s) as (r1 & evs1 & Hrun & Hpre & Hend).
  destruct r1 as [[]|e|]; cbn [emission_end] in Hend.
  - destruct Hend.
  - rewrite (generate_messages_over_raise _ _ _ _ _ Hrun).
    cbn [environ trace]. rewrite <- app_assoc.
    eexists _, _. split; [reflexivity|]. right.
    exists evs1, e. auto.
  - rewrite (generate_messages_over_out_of_fuel _ _ _ _ Hrun).
    exists OutOfFuel, evs1. split; [reflexivity|]. left. tauto.
Qed.

(** [generate_messages] only logs, sends to its topic, waits for its
    interval and closes its producer. *)
Lemma generate_messages_over_events messages fuel s :
  exists r evs,
    generate_messages_over w messages fuel producer topic interval_secs s =
      (r, {| environ := environ s; trace := trace s ++ evs |}) /\
    Forall (from_loop producer topic interval_secs) evs.
Proof.
  destruct (generate_messages_over_run messages fuel s)
    as (r & evs & Hrun & Hshape).
  exists r, evs. split; [exact Hrun|].
  destruct Hshape as [(_ & -> & _) | (loop_evs & e & [k Hpre] & _ & _ & ->)].
  - apply from_loop_blocks.
  - apply Forall_app. split; [|apply from_loop_epilogue].
    pose proof (from_loop_blocks producer topic interval_secs (cycle fuel messages))
      as H.
    rewrite Hpre in H. now apply Forall_app in H as [H _].
Qed.

(** In a world without failures the loop is still running when the fuel
    ends, and its trace is the undisturbed one. *)
Lemma generate_messages_over_failure_free messages fuel s :
  failure_free w ->
  generate_messages_over w messages fuel producer topic interval_secs s =
    (OutOfFuel,
     {| environ := environ s;
        trace := trace s ++ flat_map blk (cycle fuel messages) |}).
Proof.
  intros Hfree.
  destruct (generate_messages_over_run messages fuel s)
    as (r & evs & Hrun & [(-> & -> & _) | (loop_evs & e & _ & Horigin & _)]).
  - exact Hrun.
  - destruct Horigin as (evs0 & ev & _ & _ & Hout).
    rewrite Hfree in Hout. discriminate.
Qed.

(** Conversely, a loop that is still running when the fuel ends has met
    no failure: the fuel never hides a run that has ended. *)
Lemma still_running_without_failure messages fuel s s' :
  generate_messages_over w messages fuel producer topic interval_secs s
  = (OutOfFuel, s') ->
  trace s' = trace s ++ flat_map blk (cycle fuel messages) /\
  calls_returned w s (since s s').
Proof.
  intros Hout.
  destruct (generate_messages_over_run messages fuel s)
    as (r & evs & Hrun & [(-> & -> & Hcalls) | (loop_evs & e & _ & _ & Hr & _)]).
  - rewrite Hout in Hrun. injection Hrun as ->. cbn [trace].
    split; [reflexivity|]. now erewrite since_app by reflexivity.
  - rewrite Hout in Hrun. injection Hrun as <- _. cbn zeta in Hr.
    symmetry in Hr. now apply epilogue_not_out_of_fuel in Hr.
Qed.

(** And a send or a wait that does not return ends the loop: with fuel
    enough to reach it, [generate_messages] comes to an end.  The sends and
    waits of a run sit at the odd positions after its start. *)
Lemma failure_ends_the_loop messages fuel s j :
  call_outcome w (length (trace s) + (2 * j + 1)) <> Returns tt ->
  (2 * j + 1 < 4 * (fuel * length messages))%nat ->
  fst (generate_messages_over w messages fuel producer topic interval_secs s)
  <> OutOfFuel.
Proof.
  intros Hfails Hreach Hout.
  destruct (generate_messages_over w messages fuel producer topic interval_secs s)
    as [r s'] eqn:Hrun.
  cbn [fst] in Hout. subst r.
  apply still_running_without_failure in Hrun as [Htrace Hcalls].
  erewrite since_app in Hcalls by exact Htrace.
  rewrite <- cycle_length in Hreach.
  destruct (blocks_odd_positions producer topic interval_secs
              (cycle fuel messages) j Hreach) as (ev & Hev & Hkind).
  exact (Hfails (Hcalls _ _ Hev Hkind)).
Qed.

(** In any world, whatever cuts the run short, the values published so far
    are an initial part of the list laid end to end. *)
Lemma sends_follow_the_list messages fuel s :
  sent (since s (snd (generate_messages_over w messages fuel producer topic
                        interval_secs s)))
    `prefix_of` cycle fuel messages.
Proof.
  destruct (generate_messages_over_run messages fuel s)
    as (r & evs & Hrun & Hshape).
  rewrite Hrun. cbn [snd]. rewrite (since_app _ _ evs) by reflexivity.
  destruct Hshape as [(_ & -> & _) | (loop_evs & e & Hpre & _ & _ & ->)].
  - now rewrite sent_blocks.
  - rewrite sent_app, epilogue_sent, app_nil_r.
    rewrite <- (sent_blocks producer topic interval_secs (cycle fuel messages)).
    now apply sent_prefix.
Qed.

(** The handlers and the cleanup around any loop body at all: when the body
    ends, by returning or by raising anything, the connection is closed
    once. *)
Lemma cleanup_after_any_body (loop : M unit) s :
  let run := try_finally (try_except loop on_exception) (cleanup w producer) s in
  match loop s with
  | (OutOfFuel, s1) => run = (OutOfFuel, s1)
  | (_, s1) =>
      fst run <> OutOfFuel /\
      trace s1 `prefix_of` trace (snd run) /\
      closes (since s1 (snd run)) = [EClose producer]
  end.
Proof.
  unfold try_finally, try_except.
  destruct (loop s) as [[[]|e|] s1]; cbn zeta; [| |reflexivity].
  - unfold cleanup, bind, producer_close, external, call, logger_info, emit, record.
    destruct (call_outcome w _) as [[]|e']; cbn [fst snd trace environ];
      rewrite <- ?app_assoc;
      (split; [discriminate|]); (split; [now eexists|]);
      erewrite since_app by reflexivity; reflexivity.
  - destruct e as [|c|cls text]; cbn [on_exception];
      unfold cleanup, bind, producer_close, external, call, logger_info,
        logger_warning, logger_error, emit, record; cbn [trace environ];
      destruct (call_outcome w _) as [[]|e']; cbn [fst snd trace environ];
      rewrite <- ?app_assoc;
      (split; [discriminate|]); (split; [now eexists|]);
      erewrite since_app by reflexivity; reflexivity.
Qed.

End Loop.

(** ** The emission loop *)

(** C1. In a run of the emission loop that is neither interrupted nor
    hit by a failure, the n-th value sent (counting from 0) is the entry
    of the source list at index n mod L, L being the length of the list:
    after [fuel] passes exactly [fuel * L] values have been sent, each of
    them the one the list holds at that index.  With the list a, b, c and
    interval 0 the first seven values sent are a, b, c, a, b, c, a. *)
Theorem emission_is_cyclic w messages fuel producer topic interval_secs s
    (Hfree : failure_free w) :
  let evs := since s (snd (generate_messages_over w messages fuel producer topic
                             interval_secs s)) in
  length (sent evs) = (fuel * length messages)%nat /\
  (forall n, (n < fuel * length messages)%nat ->
     exists m, sent evs !! n = Some m /\
               messages !! (n mod length messages)%nat = Some m) /\
  (messages = abc -> interval_secs = 0 -> (3 <= fuel)%nat ->
     take 7 (sent evs) = ["a"; "b"; "c"; "a"; "b"; "c"; "a"]).
Proof.
  intros evs. subst evs.
  rewrite (generate_messages_over_failure_free w producer topic interval_secs
             messages fuel s Hfree).
  cbn [snd]. erewrite since_app by reflexivity. rewrite sent_blocks.
  split; [apply cycle_length|]. split.
  - intros n Hn. rewrite (cycle_lookup _ _ _ Hn).
    destruct (messages !! (n mod length messages)%nat) as [m|] eqn:Hm.
    + now exists m.
    + apply lookup_ge_None in Hm.
      assert (length messages <> 0)%nat by lia.
      pose proof (Nat.mod_upper_bound n (length messages)). lia.
  - intros -> _ Hfuel.
    destruct fuel as [|[|[|fuel]]]; try lia. reflexivity.
Qed.

Lemma emission_is_cyclic_witness :
  failure_free calm /\
  take 7 (sent (since (start ∅)
                  (snd (generate_messages_over calm abc 3 1%nat (PStr "buzz_topic")
                          0 (start ∅)))))
  = ["a"; "b"; "c"; "a"; "b"; "c"; "a"].
Proof.
  split; [intros i; reflexivity|].
  apply (emission_is_cyclic calm abc 3 1%nat (PStr "buzz_topic") 0 (start ∅));
    [intros i; reflexivity | reflexivity | reflexivity | lia].
Defined.

(** The script's own list: the value sent after the last entry is the
    first entry again. *)
Example wrap_around_of_string_list :
  let values := sent (trace (snd (generate_messages calm 2 1%nat (PStr "buzz_topic")
                                   10 (start ∅)))) in
  values !! 102%nat = Some "I can’t wait to check my answer" /\
  values !! 103%nat = Some "This doesn’t make any sense" /\
  values !! 103%nat = string_list !! 0%nat.
Proof. vm_compute. repeat split. Qed.

(** C2. Every invocation of [generate_messages] that ends, whichever
    way it ends (interrupt, failure of a send or of a wait, any other
    exception, or a failing close), has called [producer.close] exactly
    once, on its own producer; while the loop is still running no close has
    happened.  The same holds around any loop body, so also for a loop
    that would return normally. *)
Theorem close_exactly_once w messages fuel producer topic interval_secs s :
  let run := generate_messages_over w messages fuel producer topic interval_secs s in
  trace s `prefix_of` trace (snd run) /\
  closes (since s (snd run)) =
    match fst run with
    | OutOfFuel => []
    | _ => [EClose producer]
    end /\
  forall (loop : M unit) r1 s1,
    loop s = (r1, s1) -> r1 <> OutOfFuel ->
    let run' := try_finally (try_except loop on_exception) (cleanup w producer) s in
    fst run' <> OutOfFuel /\ closes (since s1 (snd run')) = [EClose producer].
Proof.
  intros run. subst run.
  destruct (generate_messages_over_run w producer topic interval_secs messages fuel s)
    as (r & evs & Hrun & Hshape).
  rewrite Hrun. cbn [fst snd trace]. erewrite since_app by reflexivity.
  split; [now exists evs|]. split.
  - destruct Hshape as [(-> & -> & _) | (loop_evs & e & Hpre & _ & Hr & ->)].
    + apply closes_blocks.
    + rewrite closes_app, epilogue_closes.
      rewrite (closes_prefix_nil _ _ Hpre (closes_blocks _ _ _ _)).
      cbn zeta in Hr.
      destruct r; [reflexivity | reflexivity |].
      symmetry in Hr. now apply epilogue_not_out_of_fuel in Hr.
  - intros loop r1 s1 Hloop Hr1.
    pose proof (cleanup_after_any_body w producer loop s) as H.
    rewrite Hloop in H. cbn zeta in *.
    destruct r1; [tauto | tauto | congruence].
Qed.

(** The ways out of the loop, one run each. *)
Example interrupt_during_wait :
  generate_messages_over (failing_at 3 KeyboardInterrupt) abc 2 1%nat
    (PStr "buzz_topic") 10 (start ∅)
  = (Ret tt,
     {| environ := ∅;
        trace := block 1%nat (PStr "buzz_topic") 10 "a"
                 ++ [ELog WARNING "Producer interrupted by user.";
                     EClose 1%nat; ELog INFO "Kafka producer closed."] |}).
Proof. reflexivity. Qed.

Example other_exception_passes_through :
  generate_messages_over (failing_at 1 (SystemExit 9)) abc 2 1%nat
    (PStr "buzz_topic") 10 (start ∅)
  = (Raise (SystemExit 9),
     {| environ := ∅;
        trace := take 2 (block 1%nat (PStr "buzz_topic") 10 "a")
                 ++ [EClose 1%nat; ELog INFO "Kafka producer closed."] |}).
Proof. reflexivity. Qed.

Example failing_close :
  generate_messages_over interrupted_then_close_fails abc 2 1%nat
    (PStr "buzz_topic") 10 (start ∅)
  = (Raise (Exception "KafkaError" "close failed"),
     {| environ := ∅;
        trace := block 1%nat (PStr "buzz_topic") 10 "a"
                 ++ take 2 (block 1%nat (PStr "buzz_topic") 10 "b")
                 ++ [ELog WARNING "Producer interrupted by user."; EClose 1%nat] |}).
Proof. reflexivity. Qed.

(** C5. When the loop raises an exception of class [Exception] (a
    failure: neither the interrupt nor an exit request), it is what the last
    call of the loop, a send or a wait, raised; the handler logs it at
    error severity, the next call is the close of the cleanup, and nothing
    follows but the closing log line: no retry, no further send.
    [generate_messages] itself ends, normally unless the close raises. *)
Theorem failure_abandons_loop w messages fuel producer topic interval_secs s
    cls text s1
    (Hfail : emission w messages fuel producer topic interval_secs s
             = (Raise (Exception cls text), s1)) :
  let run := generate_messages_over w messages fuel producer topic interval_secs s in
  raised_by_last_call w s (since s s1) (Exception cls text) /\
  match call_outcome w (S (length (trace s1))) with
  | Returns _ =>
      fst run = Ret tt /\
      since s1 (snd run) =
        [ELog ERROR ("Error in message generation: " +:+ text);
         EClose producer; ELog INFO "Kafka producer closed."]
  | Raises e' =>
      fst run = Raise e' /\
      since s1 (snd run) =
        [ELog ERROR ("Error in message generation: " +:+ text); EClose producer]
  end.
Proof.
  intros run. subst run. split.
  - destruct (emission_run w producer topic interval_secs messages fuel s)
      as (r & evs & Hrun & _ & Hend).
    rewrite Hfail in Hrun. injection Hrun as <- ->.
    cbn [emission_end] in Hend. now erewrite since_app by reflexivity.
  - rewrite (generate_messages_over_raise _ _ _ _ _ _ _ _ _ Hfail).
    unfold epilogue. rewrite length_app. cbn [length]. rewrite Nat.add_1_r.
    destruct (call_outcome w _) as [[]|e']; cbn [fst snd];
      (split; [reflexivity|]); now erewrite since_app by reflexivity.
Qed.

Lemma failure_abandons_loop_witness :
  emission (failing_at 5 timed_out) abc 2 1%nat (PStr "buzz_topic") 10 (start ∅)
  = (Raise timed_out, after_failed_send) /\
  fst (generate_messages_over (failing_at 5 timed_out) abc 2 1%nat
         (PStr "buzz_topic") 10 (start ∅)) = Ret tt /\
  since after_failed_send
    (snd (generate_messages_over (failing_at 5 timed_out) abc 2 1%nat
            (PStr "buzz_topic") 10 (start ∅)))
  = [ELog ERROR "Error in message generation: timed out";
     EClose 1%nat; ELog INFO "Kafka producer closed."].
Proof.
  split; [reflexivity|].
  exact (proj2 (failure_abandons_loop (failing_at 5 timed_out) abc 2 1%nat
                  (PStr "buzz_topic") 10 (start ∅) "KafkaTimeoutError" "timed out"
                  after_failed_send eq_refl)).
Defined.

(** C8. In a run of the emission loop that is neither interrupted nor
    hit by a failure the trace consists of one block per message (log
    line, send, log line, wait of the configured interval): every send is
    followed, after its log line and before any other send, by one wait of
    exactly the configured interval, also across the wrap-around from the
    last entry of the list to the first. *)
Theorem wait_after_every_send w messages fuel producer topic interval_secs s
    (Hfree : failure_free w) :
  let evs := since s (snd (generate_messages_over w messages fuel producer topic
                             interval_secs s)) in
  evs = flat_map (block producer topic interval_secs) (cycle fuel messages) /\
  sends_and_sleeps evs
  = flat_map (fun m => [ESend producer topic m; ESleep interval_secs])
      (cycle fuel messages) /\
  (forall i p t m,
     evs !! i = Some (ESend p t m) ->
     evs !! (2 + i)%nat = Some (ESleep interval_secs)).
Proof.
  intros evs. subst evs.
  rewrite (generate_messages_over_failure_free w producer topic interval_secs
             messages fuel s Hfree).
  cbn [snd]. erewrite since_app by reflexivity.
  split; [reflexivity|]. split.
  - apply sends_and_sleeps_blocks.
  - intros i p t m. apply blocks_send_then_sleep.
Qed.

Lemma wait_after_every_send_witness :
  failure_free calm /\
  sends_and_sleeps
    (since (start ∅)
       (snd (generate_messages_over calm abc 2 1%nat (PStr "buzz_topic") 10
               (start ∅))))
  = flat_map (fun m => [ESend 1%nat (PStr "buzz_topic") m; ESleep 10])
      ["a"; "b"; "c"; "a"; "b"; "c"].
Proof.
  split; [intros i; reflexivity|].
  apply (wait_after_every_send calm abc 2 1%nat (PStr "buzz_topic") 10 (start ∅)).
  intros i; reflexivity.
Defined.

(** ** The getters *)

Lemma get_kafka_topic_run s :
  get_kafka_topic s =
    (Ret (resolved_topic (environ s)),
     {| environ := environ s;
        trace := trace s ++
                 [EGetenv "KAFKA_TOPIC";
                  ELog INFO ("Kafka topic: " +:+ Py.str (resolved_topic (environ s)))] |}).
Proof.
  unfold get_kafka_topic, bind, os_getenv, logger_info, emit, ret, record,
    resolved_topic.
  cbn [trace environ]. now rewrite <- app_assoc.
Qed.

Lemma get_message_interval_run s :
  get_message_interval s =
    match resolved_interval (environ s) with
    | Returns z =>
        (Ret z,
         {| environ := environ s;
            trace := trace s ++
                     [EGetenv "MESSAGE_INTERVAL_SECONDS";
                      ELog INFO ("Message interval: " +:+ Py.str_of_int z
                                 +:+ " seconds")] |})
    | Raises e =>
        (Raise e,
         {| environ := environ s;
            trace := trace s ++ [EGetenv "MESSAGE_INTERVAL_SECONDS"] |})
    end.
Proof.
  unfold get_message_interval, bind, os_getenv, logger_info, emit, int, ret,
    raise, record, resolved_interval.
  cbn [trace environ].
  destruct (environ s !! "MESSAGE_INTERVAL_SECONDS") as [v|].
  - destruct (Py.int_of_str v) as [z|]; [|reflexivity].
    cbn [trace environ]. now rewrite <- app_assoc.
  - cbn [trace environ]. now rewrite <- app_assoc.
Qed.

(** C6. When neither variable is set, [get_kafka_topic] returns
    "buzz_topic" and [get_message_interval] returns 10, each on its own and
    one after the other as [main] calls them. *)
Theorem defaults_when_unset (s : state) :
  environ s !! "KAFKA_TOPIC" = None ->
  environ s !! "MESSAGE_INTERVAL_SECONDS" = None ->
  fst (get_kafka_topic s) = Ret (PStr "buzz_topic") /\
  fst (get_message_interval s) = Ret 10 /\
  fst ((topic <- get_kafka_topic ;;
        interval_secs <- get_message_interval ;;
        ret (topic, interval_secs)) s) = Ret (PStr "buzz_topic", 10).
Proof.
  intros Htopic Hinterval.
  unfold bind. rewrite get_kafka_topic_run, !get_message_interval_run.
  cbn [environ]. unfold resolved_topic, resolved_interval.
  rewrite Htopic, Hinterval. repeat split.
Qed.

Lemma defaults_when_unset_witness :
  fst (get_kafka_topic (start ∅)) = Ret (PStr "buzz_topic") /\
  fst (get_message_interval (start ∅)) = Ret 10.
Proof.
  pose proof (defaults_when_unset (start ∅) eq_refl eq_refl) as (H1 & H2 & _).
  split; [exact H1 | exact H2].
Defined.

(** ** The orchestrator *)

(** The runs of [main], path by path. *)
Lemma main_run w fuel env :
  main w fuel (start env) =
    let env' := env ∪ dotenv_file w in
    let topic := resolved_topic env' in
    let at_ evs := {| environ := env'; trace := evs |} in
    match verify_services_outcome w with
    | Raises e => (Raise e, at_ boot)
    | Returns _ =>
        match resolved_interval env' with
        | Raises e => (Raise e, at_ (boot ++ config_events topic))
        | Returns z =>
            match create_kafka_producer_outcome w with
            | Raises e => (Raise e, at_ (upto_producer topic z))
            | Returns None =>
                (Raise (SystemExit 3),
                 at_ (upto_producer topic z ++
                      [ELog ERROR "Failed to create Kafka producer. Exiting..."]))
            | Returns (Some producer) =>
                match create_kafka_topic_outcome w topic with
                | Raises (Exception cls text) =>
                    (Raise (SystemExit 1),
                     at_ (upto_producer topic z ++
                          [ECreateTopic topic;
                           ELog ERROR ("Failed to create or verify topic '"
                                       +:+ Py.str topic +:+ "': " +:+ text)]))
                | Raises e =>
                    (Raise e, at_ (upto_producer topic z ++ [ECreateTopic topic]))
                | Returns _ =>
                    match generate_messages w fuel producer topic z
                            (at_ (upto_loop topic z)) with
                    | (Ret _, s') => (Ret tt, record (ELog INFO "END producer.") s')
                    | other => other
                    end
                end
            end
        end
    end.
Proof.
  unfold main at 1.
  unfold bind, logger_info, logger_error, emit, load_dotenv, verify_services,
    call, record, start; cbn [trace environ app].
  destruct (verify_services_outcome w) as [[]|e]; [|reflexivity].
  rewrite get_kafka_topic_run, get_message_interval_run. cbn [trace environ app].
  destruct (resolved_interval _) as [z|e]; [|reflexivity].
  unfold create_kafka_producer, call, record, try_except, create_kafka_topic,
    sys_exit, raise, ret; cbn [trace environ app].
  destruct (create_kafka_producer_outcome w) as [[producer|]|e];
    [|reflexivity|reflexivity].
  cbn [trace environ app].
  destruct (create_kafka_topic_outcome w _) as [[]|[|c|cls text]];
    cbn [on_topic_failure trace environ app]; reflexivity.
Qed.

(** The trace of [main] once all four startup steps have succeeded. *)
Lemma main_trace_in_loop w fuel env z producer :
  verify_services_outcome w = Returns tt ->
  resolved_interval (env ∪ dotenv_file w) = Returns z ->
  create_kafka_producer_outcome w = Returns (Some producer) ->
  create_kafka_topic_outcome w (resolved_topic (env ∪ dotenv_file w)) = Returns tt ->
  exists evs,
    trace (snd (main w fuel (start env))) =
      upto_loop (resolved_topic (env ∪ dotenv_file w)) z ++ evs /\
    Forall (from_loop producer (resolved_topic (env ∪ dotenv_file w)) z) evs.
Proof.
  intros Hverify Hinterval Hproducer Htopic.
  rewrite main_run. cbn zeta. rewrite Hverify, Hinterval, Hproducer, Htopic.
  unfold generate_messages.
  destruct (generate_messages_over_events w producer
              (resolved_topic (env ∪ dotenv_file w)) z string_list fuel
              {| environ := env ∪ dotenv_file w;
                 trace := upto_loop (resolved_topic (env ∪ dotenv_file w)) z |})
    as (r & evs & -> & Hevs).
  cbn [trace environ] in *.
  destruct r as [[]|e|]; cbn [snd trace record].
  - exists (evs ++ [ELog INFO "END producer."]). rewrite app_assoc.
    split; [reflexivity|]. apply Forall_app. split; [exact Hevs|repeat constructor].
  - now exists evs.
  - now exists evs.
Qed.

(** Once the service check has passed, the next call of [main] reads the
    topic variable. *)
Lemma main_trace_after_verify w fuel env :
  verify_services_outcome w = Returns tt ->
  exists rest,
    trace (snd (main w fuel (start env))) = boot ++ EGetenv "KAFKA_TOPIC" :: rest.
Proof.
  intros Hverify.
  destruct (resolved_interval (env ∪ dotenv_file w)) as [z|e] eqn:Hinterval;
    [|rewrite main_run; cbn zeta; rewrite Hverify, Hinterval; now eexists].
  destruct (create_kafka_producer_outcome w) as [[producer|]|e] eqn:Hproducer;
    [| rewrite main_run; cbn zeta; rewrite Hverify, Hinterval, Hproducer;
       now eexists ..].
  destruct (create_kafka_topic_outcome w (resolved_topic (env ∪ dotenv_file w)))
    as [[]|e] eqn:Htopic.
  - destruct (main_trace_in_loop w fuel env z producer Hverify Hinterval
                Hproducer Htopic) as (evs & -> & _).
    now eexists.
  - rewrite main_run; cbn zeta; rewrite Hverify, Hinterval, Hproducer, Htopic.
    destruct e; now eexists.
Qed.

Lemma from_loop_no_create_topic producer topic interval_secs evs t :
  Forall (from_loop producer topic interval_secs) evs -> ~ In (ECreateTopic t) evs.
Proof.
  intros Hall Hin. rewrite Forall_forall in Hall.
  apply list_elem_of_In in Hin. exact (Hall _ Hin).
Qed.

(** [time.sleep] is only ever called with the interval as resolved. *)
Lemma main_sleeps_for_resolved_interval w fuel env z x :
  resolved_interval (env ∪ dotenv_file w) = Returns z ->
  In (ESleep x) (trace (snd (main w fuel (start env)))) ->
  x = z.
Proof.
  intros Hinterval Hin.
  destruct (verify_services_outcome w) as [[]|e] eqn:Hverify;
    [|rewrite main_run in Hin; cbn zeta in Hin; rewrite Hverify in Hin;
      no_such_event Hin].
  destruct (create_kafka_producer_outcome w) as [[producer|]|e] eqn:Hproducer;
    [| rewrite main_run in Hin; cbn zeta in Hin;
       rewrite Hverify, Hinterval, Hproducer in Hin; no_such_event Hin ..].
  destruct (create_kafka_topic_outcome w (resolved_topic (env ∪ dotenv_file w)))
    as [[]|e] eqn:Htopic.
  - destruct (main_trace_in_loop w fuel env z producer Hverify Hinterval
                Hproducer Htopic) as (evs & Htrace & Hevs).
    rewrite Htrace in Hin. apply in_app_or in Hin as [Hin|Hin];
      [no_such_event Hin|].
    rewrite Forall_forall in Hevs. apply list_elem_of_In in Hin.
    exact (Hevs _ Hin).
  - rewrite main_run in Hin; cbn zeta in Hin;
      rewrite Hverify, Hinterval, Hproducer, Htopic in Hin.
    destruct e; no_such_event Hin.
Qed.

(** C3. When the producer acquisition is reached and yields no usable
    handle, [main] ends in [sys.exit(3)]: the trace ends with the
    acquisition and the error log line, and holds no topic creation and no
    send. *)
Theorem no_producer_exits_with_3 w fuel env :
  let run := main w fuel (start env) in
  In ECreateProducer (trace (snd run)) ->
  create_kafka_producer_outcome w = Returns None ->
  fst run = Raise (SystemExit 3) /\
  (exists before,
     trace (snd run) =
       before ++ [ECreateProducer;
                  ELog ERROR "Failed to create Kafka producer. Exiting..."]) /\
  first_index is_create_topic (trace (snd run)) = None /\
  sent (trace (snd run)) = [].
Proof.
  intros run. subst run. rewrite main_run. cbn zeta. intros Hin Hnone.
  destruct (verify_services_outcome w) as [[]|e]; [|no_such_event Hin].
  destruct (resolved_interval _) as [z|e]; [|no_such_event Hin].
  rewrite Hnone. cbn [fst snd trace].
  split; [reflexivity|]. split; [|split; reflexivity].
  eexists (boot ++ config_events _ ++ [_]). reflexivity.
Qed.

Lemma no_producer_exits_with_3_witness :
  In ECreateProducer (trace (snd (main no_producer 1 (start ∅)))) /\
  create_kafka_producer_outcome no_producer = Returns None /\
  fst (main no_producer 1 (start ∅)) = Raise (SystemExit 3).
Proof.
  assert (Hin : In ECreateProducer (trace (snd (main no_producer 1 (start ∅)))))
    by (vm_compute; tauto).
  split; [exact Hin|]. split; [reflexivity|].
  exact (proj1 (no_producer_exits_with_3 no_producer 1%nat ∅ Hin eq_refl)).
Defined.

(** C4. When the topic creation is reached (so a usable producer was
    acquired) and fails with an exception, [main] logs the failure and ends
    in [sys.exit(1)]: the trace ends there, the emission loop is not
    entered and no value is sent. *)
Theorem topic_failure_exits_with_1 w fuel env t cls text :
  let run := main w fuel (start env) in
  In (ECreateTopic t) (trace (snd run)) ->
  create_kafka_topic_outcome w t = Raises (Exception cls text) ->
  fst run = Raise (SystemExit 1) /\
  (exists before,
     trace (snd run) =
       before ++ [ECreateProducer; ECreateTopic t;
                  ELog ERROR ("Failed to create or verify topic '" +:+ Py.str t
                              +:+ "': " +:+ text)]) /\
  sent (trace (snd run)) = [] /\
  closes (trace (snd run)) = [].
Proof.
  intros run. subst run. intros Hin Hfail.
  destruct (verify_services_outcome w) as [[]|e] eqn:Hverify;
    [|rewrite main_run in Hin; cbn zeta in Hin; rewrite Hverify in Hin;
      no_such_event Hin].
  destruct (resolved_interval (env ∪ dotenv_file w)) as [z|e] eqn:Hinterval;
    [|rewrite main_run in Hin; cbn zeta in Hin;
      rewrite Hverify, Hinterval in Hin; no_such_event Hin].
  destruct (create_kafka_producer_outcome w) as [[producer|]|e] eqn:Hproducer;
    [| rewrite main_run in Hin; cbn zeta in Hin;
       rewrite Hverify, Hinterval, Hproducer in Hin; no_such_event Hin ..].
  destruct (create_kafka_topic_outcome w (resolved_topic (env ∪ dotenv_file w)))
    as [[]|e] eqn:Htopic.
  - destruct (main_trace_in_loop w fuel env z producer Hverify Hinterval
                Hproducer Htopic) as (evs & Htrace & Hevs).
    rewrite Htrace in Hin. apply in_app_or in Hin as [Hin|Hin].
    + cbn in Hin.
      repeat (destruct Hin as [Hin|Hin]; [try discriminate Hin|]); [|destruct Hin].
      injection Hin as <-. congruence.
    + now apply from_loop_no_create_topic with (t := t) in Hevs.
  - rewrite main_run in *. cbn zeta in *.
    rewrite Hverify, Hinterval, Hproducer, Htopic in *.
    assert (t = resolved_topic (env ∪ dotenv_file w)) as ->.
    { destruct e;
        (cbn in Hin;
         repeat (destruct Hin as [Hin|Hin]; [try discriminate Hin|]);
         [now injection Hin | destruct Hin]). }
    rewrite Hfail in Htopic. injection Htopic as <-.
    cbn [fst snd trace].
    split; [reflexivity|]. split; [|split; reflexivity].
    eexists (boot ++ config_events _ ++ [_]). reflexivity.
Qed.

Lemma topic_failure_exits_with_1_witness :
  In (ECreateTopic (PStr "buzz_topic")) (trace (snd (main no_topic 1 (start ∅)))) /\
  fst (main no_topic 1 (start ∅)) = Raise (SystemExit 1) /\
  sent (trace (snd (main no_topic 1 (start ∅)))) = [].
Proof.
  assert (Hin : In (ECreateTopic (PStr "buzz_topic"))
                  (trace (snd (main no_topic 1 (start ∅)))))
    by (vm_compute; tauto).
  split; [exact Hin|].
  pose proof (topic_failure_exits_with_1 no_topic 1%nat ∅ (PStr "buzz_topic")
                "NoBrokersAvailable" "NoBrokersAvailable" Hin eq_refl) as H.
  split; [exact (proj1 H) | exact (proj1 (proj2 (proj2 H)))].
Defined.

(** C7. When the interval variable holds a text that [int] rejects,
    [get_message_interval] raises a [ValueError], the parse error of
    [int]; no handler of the script catches it: once the service check has
    passed, [main] ends with that very exception, right after reading the
    variable and before any producer is acquired.  The texts covered are
    the ASCII ones, on which [Py.int_of_str] rejects exactly what [int]
    rejects. *)
Theorem malformed_interval_is_fatal w fuel env s text :
  Py.is_ascii text = true ->
  Py.int_of_str text = None ->
  exists message,
    (environ s !! "MESSAGE_INTERVAL_SECONDS" = Some text ->
     get_message_interval s =
       (Raise (Exception "ValueError" message),
        record (EGetenv "MESSAGE_INTERVAL_SECONDS") s)) /\
    ((env ∪ dotenv_file w) !! "MESSAGE_INTERVAL_SECONDS" = Some text ->
     verify_services_outcome w = Returns tt ->
     main w fuel (start env) =
       (Raise (Exception "ValueError" message),
        {| environ := env ∪ dotenv_file w;
           trace := boot ++ config_events (resolved_topic (env ∪ dotenv_file w)) |})).
Proof.
  intros _ Hparse.
  exists ("invalid literal for int() with base 10: "
          +:+ string_of_list_ascii (take 200 (Py.repr text))).
  split.
  - intros Hset. rewrite get_message_interval_run. unfold resolved_interval.
    now rewrite Hset, Hparse.
  - intros Hset Hverify. rewrite main_run. cbn zeta. rewrite Hverify.
    unfold resolved_interval. now rewrite Hset, Hparse.
Qed.

Lemma malformed_interval_is_fatal_witness :
  Py.is_ascii "ten" = true /\
  Py.int_of_str "ten" = None /\
  exists message,
    main calm 1 (start (interval_env "ten")) =
      (Raise (Exception "ValueError" message),
       {| environ := interval_env "ten" ∪ dotenv_file calm;
          trace := boot ++ config_events
                             (resolved_topic (interval_env "ten" ∪ dotenv_file calm)) |}).
Proof.
  split; [reflexivity|]. split; [reflexivity|].
  destruct (malformed_interval_is_fatal calm 1%nat (interval_env "ten")
              (start (interval_env "ten")) "ten" eq_refl eq_refl)
    as (message & _ & Hmain).
  exists message. exact (Hmain eq_refl eq_refl).
Defined.

(** A text of non-ASCII digits is outside the theorem: [Py.is_ascii]
    tells it apart. *)
Example fullwidth_digits_are_not_ascii : Py.is_ascii "１２" = false.
Proof. reflexivity. Qed.

(** C9 as stated does not hold: in the run where everything works and no
    variable is set, the service check is the call at position 3 of the
    trace and the first variable is read at position 4, after it. *)
Lemma resolution_before_verification_fails :
  let tr := trace (snd (main calm 1 (start ∅))) in
  first_index is_verify tr = Some 3%nat /\
  first_index is_getenv tr = Some 4%nat /\
  ~ (precedes is_getenv is_verify tr = true).
Proof.
  vm_compute. repeat split. discriminate.
Qed.

(** C9, amended. In every execution of [main] that resolves the
    configuration at all, the service check has been performed before, and
    has returned: the trace starts with the two log lines, [load_dotenv]
    and [verify_services], and only then reads the topic variable.  No
    execution reads a variable before the check. *)
Theorem verification_precedes_resolution w fuel env key :
  let tr := trace (snd (main w fuel (start env))) in
  In (EGetenv key) tr ->
  verify_services_outcome w = Returns tt /\
  (exists rest, tr = boot ++ EGetenv "KAFKA_TOPIC" :: rest) /\
  precedes is_verify is_getenv tr = true /\
  precedes is_getenv is_verify tr = false.
Proof.
  intros tr Hin. subst tr.
  destruct (verify_services_outcome w) as [[]|e] eqn:Hverify;
    [|rewrite main_run in Hin; cbn zeta in Hin; rewrite Hverify in Hin;
      no_such_event Hin].
  split; [reflexivity|].
  destruct (main_trace_after_verify w fuel env Hverify) as (rest & ->).
  split; [now exists rest|]. split; reflexivity.
Qed.

Lemma verification_precedes_resolution_witness :
  In (EGetenv "MESSAGE_INTERVAL_SECONDS") (trace (snd (main calm 1 (start ∅)))) /\
  precedes is_verify is_getenv (trace (snd (main calm 1 (start ∅)))) = true.
Proof.
  assert (Hin : In (EGetenv "MESSAGE_INTERVAL_SECONDS")
                  (trace (snd (main calm 1 (start ∅)))))
    by (vm_compute; tauto).
  split; [exact Hin|].
  exact (proj1 (proj2 (proj2 (verification_precedes_resolution calm 1%nat ∅
                                "MESSAGE_INTERVAL_SECONDS" Hin)))).
Defined.

(** C10. When the interval variable holds a text that [int] reads as a
    negative number, [get_message_interval] returns that number as it is,
    after logging it: nothing checks its sign.  Nor does anything later in
    [main]: whenever [time.sleep] is called, it is called with that
    number. *)
Theorem negative_interval_is_returned (s : state) text z :
  Py.int_of_str text = Some z ->
  z < 0 ->
  (environ s !! "MESSAGE_INTERVAL_SECONDS" = Some text ->
   get_message_interval s =
     (Ret z,
      {| environ := environ s;
         trace := trace s ++
                  [EGetenv "MESSAGE_INTERVAL_SECONDS";
                   ELog INFO ("Message interval: " +:+ Py.str_of_int z
                              +:+ " seconds")] |})) /\
  (forall w fuel env x,
     (env ∪ dotenv_file w) !! "MESSAGE_INTERVAL_SECONDS" = Some text ->
     In (ESleep x) (trace (snd (main w fuel (start env)))) ->
     x = z).
Proof.
  intros Hparse _. split.
  - intros Hset. rewrite get_message_interval_run. unfold resolved_interval.
    now rewrite Hset, Hparse.
  - intros w fuel env x Hset.
    apply main_sleeps_for_resolved_interval.
    unfold resolved_interval. now rewrite Hset, Hparse.
Qed.

Lemma negative_interval_is_returned_witness :
  Py.int_of_str "-5" = Some (-5) /\
  fst (get_message_interval (start (interval_env "-5"))) = Ret (-5).
Proof.
  split; [reflexivity|].
  destruct (negative_interval_is_returned (start (interval_env "-5")) "-5" (-5)
              eq_refl) as [H _]; [lia|].
  rewrite (H eq_refl). reflexivity.
Defined.

(** With the interval set to -5 the first wait is asked for -5 seconds;
    in a world where the clock refuses that, the loop is abandoned after
    one message. *)
Example negative_interval_run :
  let run := main (failing_at 15 (Exception "ValueError"
                                    "sleep length must be non-negative"))
               1 (start (interval_env "-5")) in
  fst run = Ret tt /\
  sends_and_sleeps (trace (snd run))
  = [ESend 1%nat (PStr "buzz_topic") "This doesn’t make any sense"; ESleep (-5)] /\
  closes (trace (snd run)) = [EClose 1%nat].
Proof. vm_compute. repeat split. Qed.

(** * Further properties of the script *)

(** ** Leaving the loop *)

(** X1. When the loop is interrupted from the keyboard, the interrupt is
    what its last send or wait raised; [generate_messages] logs it at
    warning severity, closes the producer, logs the closing line and
    returns normally: the interrupt does not reach the caller.  Only a
    failing close makes it raise. *)
Theorem interrupt_is_swallowed w messages fuel producer topic interval_secs s s1
    (Hint : emission w messages fuel producer topic interval_secs s
            = (Raise KeyboardInterrupt, s1)) :
  let run := generate_messages_over w messages fuel producer topic interval_secs s in
  raised_by_last_call w s (since s s1) KeyboardInterrupt /\
  match call_outcome w (S (length (trace s1))) with
  | Returns _ =>
      fst run = Ret tt /\
      since s1 (snd run) =
        [ELog WARNING "Producer interrupted by user.";
         EClose producer; ELog INFO "Kafka producer closed."]
  | Raises e' =>
      fst run = Raise e' /\
      since s1 (snd run) =
        [ELog WARNING "Producer interrupted by user."; EClose producer]
  end.
Proof.
  intros run. subst run. split.
  - destruct (emission_run w producer topic interval_secs messages fuel s)
      as (r & evs & Hrun & _ & Hend).
    rewrite Hint in Hrun. injection Hrun as <- ->.
    cbn [emission_end] in Hend. now erewrite since_app by reflexivity.
  - rewrite (generate_messages_over_raise _ _ _ _ _ _ _ _ _ Hint).
    unfold epilogue. rewrite length_app. cbn [length]. rewrite Nat.add_1_r.
    destruct (call_outcome w _) as [[]|e']; cbn [fst snd];
      (split; [reflexivity|]); now erewrite since_app by reflexivity.
Qed.

Lemma interrupt_is_swallowed_witness :
  emission (failing_at 3 KeyboardInterrupt) abc 2 1%nat (PStr "buzz_topic") 10
    (start ∅)
  = (Raise KeyboardInterrupt, after_first_block) /\
  fst (generate_messages_over (failing_at 3 KeyboardInterrupt) abc 2 1%nat
         (PStr "buzz_topic") 10 (start ∅)) = Ret tt /\
  since after_first_block
    (snd (generate_messages_over (failing_at 3 KeyboardInterrupt) abc 2 1%nat
            (PStr "buzz_topic") 10 (start ∅)))
  = [ELog WARNING "Producer interrupted by user.";
     EClose 1%nat; ELog INFO "Kafka producer closed."].
Proof.
  split; [reflexivity|].
  exact (proj2 (interrupt_is_swallowed (failing_at 3 KeyboardInterrupt) abc 2 1%nat
                  (PStr "buzz_topic") 10 (start ∅) after_first_block eq_refl)).
Defined.

(** X2. An exception of the loop that is neither the interrupt nor of
    class [Exception] (an exit request) matches no [except] clause: nothing
    is logged for it, the producer is closed all the same, and
    [generate_messages] raises it again after the closing log line. *)
Theorem exit_request_passes_through w messages fuel producer topic interval_secs
    s s1 code
    (Hexit : emission w messages fuel producer topic interval_secs s
             = (Raise (SystemExit code), s1)) :
  let run := generate_messages_over w messages fuel producer topic interval_secs s in
  match call_outcome w (length (trace s1)) with
  | Returns _ =>
      fst run = Raise (SystemExit code) /\
      since s1 (snd run) = [EClose producer; ELog INFO "Kafka producer closed."]
  | Raises e' =>
      fst run = Raise e' /\ since s1 (snd run) = [EClose producer]
  end.
Proof.
  intros run. subst run.
  rewrite (generate_messages_over_raise _ _ _ _ _ _ _ _ _ Hexit).
  unfold epilogue. rewrite app_nil_r.
  destruct (call_outcome w _) as [[]|e']; cbn [fst snd app];
    (split; [reflexivity|]); now erewrite since_app by reflexivity.
Qed.

Lemma exit_request_passes_through_witness :
  emission (failing_at 1 (SystemExit 9)) abc 2 1%nat (PStr "buzz_topic") 10
    (start ∅)
  = (Raise (SystemExit 9), after_first_send) /\
  fst (generate_messages_over (failing_at 1 (SystemExit 9)) abc 2 1%nat
         (PStr "buzz_topic") 10 (start ∅)) = Raise (SystemExit 9) /\
  since after_first_send
    (snd (generate_messages_over (failing_at 1 (SystemExit 9)) abc 2 1%nat
            (PStr "buzz_topic") 10 (start ∅)))
  = [EClose 1%nat; ELog INFO "Kafka producer closed."].
Proof.
  split; [reflexivity|].
  exact (exit_request_passes_through (failing_at 1 (SystemExit 9)) abc 2 1%nat
           (PStr "buzz_topic") 10 (start ∅) after_first_send 9 eq_refl).
Defined.

(** X3. Whenever [generate_messages] ends, the close is the last call
    but for the closing log line: if the close returns, only that line
    follows and the result is a normal return or the exit request that
    passed through; if the close raises, nothing follows, the line is
    not logged, and [generate_messages] raises what the close raised,
    whatever had ended the loop. *)
Theorem close_decides_the_end w messages fuel producer topic interval_secs s :
  let run := generate_messages_over w messages fuel producer topic interval_secs s in
  let tr := since s (snd run) in
  fst run <> OutOfFuel ->
  exists i,
    tr !! i = Some (EClose producer) /\
    match call_outcome w (length (trace s) + i) with
    | Returns _ =>
        drop (S i) tr = [ELog INFO "Kafka producer closed."] /\
        (fst run = Ret tt \/ exists code, fst run = Raise (SystemExit code))
    | Raises e' => drop (S i) tr = [] /\ fst run = Raise e'
    end.
Proof.
  intros run tr. subst run tr.
  destruct (generate_messages_over_run w producer topic interval_secs messages fuel s)
    as (r & evs & Hrun & Hshape).
  rewrite Hrun. cbn [fst snd]. erewrite since_app by reflexivity.
  intros Hended.
  destruct Hshape as [(-> & _) | (loop_evs & e & _ & _ & Hr & ->)];
    [congruence|].
  cbn zeta in Hr. subst r. unfold epilogue in *. cbn [trace] in *.
  set (note := match e with
               | KeyboardInterrupt => [ELog WARNING "Producer interrupted by user."]
               | SystemExit _ => []
               | Exception _ text =>
                   [ELog ERROR ("Error in message generation: " +:+ text)]
               end) in *.
  exists (length loop_evs + length note)%nat.
  replace (length (trace s) + (length loop_evs + length note))%nat
    with (length ((trace s ++ loop_evs) ++ note)) by (rewrite !length_app; lia).
  destruct (call_outcome w _) as [[]|e']; cbn [fst snd].
  - split.
    + rewrite lookup_app_r by lia. rewrite lookup_app_r by lia.
      now replace (length loop_evs + length note - length loop_evs - length note)%nat
        with 0%nat by lia.
    + split.
      * rewrite drop_app_ge by lia. rewrite drop_app_ge by lia.
        now replace (S (length loop_evs + length note) - length loop_evs
                     - length note)%nat with 1%nat by lia.
      * destruct e; eauto.
  - split.
    + rewrite lookup_app_r by lia. rewrite lookup_app_r by lia.
      now replace (length loop_evs + length note - length loop_evs - length note)%nat
        with 0%nat by lia.
    + split; [|reflexivity].
      rewrite drop_app_ge by lia. rewrite drop_app_ge by lia.
      now replace (S (length loop_evs + length note) - length loop_evs
                   - length note)%nat with 1%nat by lia.
Qed.

Lemma close_decides_the_end_witness :
  fst (generate_messages_over interrupted_then_close_fails abc 2 1%nat
         (PStr "buzz_topic") 10 (start ∅)) <> OutOfFuel /\
  exists i,
    since (start ∅)
      (snd (generate_messages_over interrupted_then_close_fails abc 2 1%nat
              (PStr "buzz_topic") 10 (start ∅))) !! i = Some (EClose 1%nat).
Proof.
  assert (Hended : fst (generate_messages_over interrupted_then_close_fails abc 2
                          1%nat (PStr "buzz_topic") 10 (start ∅)) <> OutOfFuel)
    by (vm_compute; discriminate).
  split; [exact Hended|].
  destruct (close_decides_the_end interrupted_then_close_fails abc 2 1%nat
              (PStr "buzz_topic") 10 (start ∅) Hended) as (i & Hi & _).
  now exists i.
Defined.

(** ** The calls of the loop, in any world *)

Lemma sends_and_sleeps_prefix evs evs' :
  evs `prefix_of` evs' -> sends_and_sleeps evs `prefix_of` sends_and_sleeps evs'.
Proof.
  intros [k ->]. unfold sends_and_sleeps. rewrite List.filter_app.
  now eexists.
Qed.

Lemma sends_and_sleeps_epilogue w producer s1 e :
  sends_and_sleeps (snd (epilogue w producer s1 e)) = [].
Proof.
  unfold epilogue. destruct (call_outcome w _) as [[]|e']; destruct e; reflexivity.
Qed.

Lemma cycle_elem (messages : list string) n m :
  m ∈ cycle n messages -> m ∈ messages.
Proof.
  induction n as [|n IH]; cbn [cycle]; intros Hm.
  - now apply elem_of_nil in Hm.
  - apply elem_of_app in Hm as [Hm|Hm]; auto.
Qed.

(** X4. In every run of [generate_messages], also one that an
    interrupt or a failure cuts short, the sends and waits are an initial
    part of the sequence send, wait, send, wait, ... over the list laid end
    to end: values go out in list order, each wait is for the configured
    interval, and no two sends happen without a wait between them. *)
Theorem sends_and_waits_alternate w messages fuel producer topic interval_secs s :
  sends_and_sleeps
    (since s (snd (generate_messages_over w messages fuel producer topic
                     interval_secs s)))
    `prefix_of`
  flat_map (fun m => [ESend producer topic m; ESleep interval_secs])
    (cycle fuel messages).
Proof.
  destruct (generate_messages_over_run w producer topic interval_secs messages fuel s)
    as (r & evs & Hrun & Hshape).
  rewrite Hrun. cbn [snd]. erewrite since_app by reflexivity.
  rewrite <- sends_and_sleeps_blocks.
  destruct Hshape as [(_ & -> & _) | (loop_evs & e & Hpre & _ & _ & ->)];
    [reflexivity|].
  unfold sends_and_sleeps at 1. rewrite List.filter_app.
  fold (sends_and_sleeps loop_evs).
  fold (sends_and_sleeps (snd (epilogue w producer
          {| environ := environ s; trace := trace s ++ loop_evs |} e))).
  rewrite sends_and_sleeps_epilogue, app_nil_r.
  now apply sends_and_sleeps_prefix.
Qed.

(** X5. [generate_messages] makes no other calls than its own: every
    call it adds to the trace is a log line, a send by the producer it was
    given, to the topic it was given, of an entry of the list, a wait for
    the interval it was given, or the close of that producer.  It reads no
    variable and creates no producer or topic. *)
Theorem loop_makes_only_its_own_calls w messages fuel producer topic
    interval_secs s ev :
  In ev (since s (snd (generate_messages_over w messages fuel producer topic
                         interval_secs s))) ->
  match ev with
  | ELog _ _ => True
  | ESend p t m => p = producer /\ t = topic /\ In m messages
  | ESleep z => z = interval_secs
  | EClose p => p = producer
  | _ => False
  end.
Proof.
  intros Hin.
  pose proof (sends_follow_the_list w producer topic interval_secs messages fuel s)
    as Hsent.
  destruct (generate_messages_over_events w producer topic interval_secs
              messages fuel s) as (r & evs & Hrun & Hall).
  rewrite Hrun in Hin, Hsent. cbn [snd] in Hin, Hsent.
  erewrite since_app in Hin, Hsent by reflexivity.
  rewrite Forall_forall in Hall. apply list_elem_of_In in Hin.
  pose proof (Hall _ Hin) as Hev.
  destruct ev as [| | | | | |p t m| |]; cbn [from_loop] in Hev; try exact Hev.
  destruct Hev as [-> ->]. repeat split.
  apply list_elem_of_In. apply (cycle_elem _ fuel).
  eapply elem_of_prefix; [|exact Hsent].
  unfold sent. apply list_elem_of_omap. now exists (ESend producer topic m).
Qed.

Lemma loop_makes_only_its_own_calls_witness :
  In (ESend 1%nat (PStr "buzz_topic") "b")
    (since (start ∅)
       (snd (generate_messages_over (failing_at 5 timed_out) abc 2 1%nat
               (PStr "buzz_topic") 10 (start ∅)))) /\
  In "b" abc.
Proof.
  assert (Hin : In (ESend 1%nat (PStr "buzz_topic") "b")
                  (since (start ∅)
                     (snd (generate_messages_over (failing_at 5 timed_out) abc 2
                             1%nat (PStr "buzz_topic") 10 (start ∅)))))
    by (vm_compute; tauto).
  split; [exact Hin|].
  exact (proj2 (proj2 (loop_makes_only_its_own_calls (failing_at 5 timed_out) abc 2
                         1%nat (PStr "buzz_topic") 10 (start ∅) _ Hin))).
Defined.

(** ** What the log lines tell *)

Lemma append_inj_r (a b c : string) : a +:+ b = a +:+ c -> b = c.
Proof.
  induction a as [|ch a IH]; cbn; intros H; [exact H|].
  injection H as H. exact (IH H).
Qed.

Section Honest.

Variable w : world.
Variables (producer : handle) (topic : pyval) (interval_secs : Z).

Local Abbreviation body := (send_one w producer topic interval_secs).
Local Abbreviation blk := (block producer topic interval_secs).

Lemma calls_returned_earlier s evs :
  calls_returned w s evs -> earlier_calls_returned w s evs.
Proof. intros H j ev Hj Hev _. exact (H j ev Hj Hev). Qed.

Lemma earlier_calls_returned_app s evs1 evs2 :
  calls_returned w s evs1 ->
  earlier_calls_returned w {| environ := environ s; trace := trace s ++ evs1 |} evs2 ->
  earlier_calls_returned w s (evs1 ++ evs2).
Proof.
  intros H1 H2 j ev Hj Hev Hlast.
  destruct (decide (j < length evs1)%nat) as [Hlt|Hge].
  - rewrite lookup_app_l in Hj by exact Hlt. exact (H1 j ev Hj Hev).
  - rewrite lookup_app_r in Hj by lia. rewrite length_app in Hlast.
    assert (Hlast' : (S (j - length evs1) < length evs2)%nat) by lia.
    specialize (H2 _ _ Hj Hev Hlast'). cbn [trace] in H2.
    rewrite length_app in H2. rewrite <- H2. f_equal. lia.
Qed.

(** One pass over the list: only its last call can have failed. *)
Lemma for_each_earlier messages s :
  exists r evs,
    for_each messages body s =
      (r, {| environ := environ s; trace := trace s ++ evs |}) /\
    earlier_calls_returned w s evs /\
    (r = Ret tt -> calls_returned w s evs).
Proof.
  revert s. induction messages as [|m l IH]; intros s.
  - exists (Ret tt), []. cbn [for_each]. unfold ret. rewrite state_eta.
    split; [reflexivity|]. split; [|intros _]; intros j ev Hj; discriminate Hj.
  - cbn [for_each]. unfold bind at 1. rewrite send_one_run.
    destruct (call_outcome w (S (length (trace s)))) as [[]|e] eqn:Hsend.
    + destruct (call_outcome w (S (S (S (length (trace s)))))) as [[]|e] eqn:Hsleep.
      * destruct (IH {| environ := environ s; trace := trace s ++ blk m |})
          as (r & evs & Hrun & Hearlier & Hall).
        exists r, (blk m ++ evs). rewrite Hrun. cbn [environ trace].
        rewrite <- app_assoc. split; [reflexivity|].
        pose proof (calls_returned_block w producer topic interval_secs s m
                      Hsend Hsleep) as Hblock.
        split.
        -- now apply earlier_calls_returned_app.
        -- intros Hr. apply calls_returned_app; auto.
      * exists (Raise e), (blk m). split; [reflexivity|]. split; [|discriminate].
        intros j ev Hj Hev Hlast.
        destruct j as [|[|[|[|j]]]]; cbn in Hj, Hlast; try discriminate Hj;
          injection Hj as <-; try discriminate Hev; try lia.
        rewrite <- Hsend. f_equal. lia.
    + exists (Raise e), (take 2 (blk m)). split; [reflexivity|].
      split; [|discriminate].
      intros j ev Hj Hev Hlast.
      destruct j as [|[|j]]; cbn in Hj, Hlast; try discriminate Hj;
        injection Hj as <-; try discriminate Hev; lia.
Qed.

(** The whole loop: only its last call can have failed. *)
Lemma emission_earlier messages fuel s :
  exists r evs,
    emission w messages fuel producer topic interval_secs s =
      (r, {| environ := environ s; trace := trace s ++ evs |}) /\
    earlier_calls_returned w s evs.
Proof.
  unfold emission. revert s. induction fuel as [|fuel IH]; intros s.
  - exists OutOfFuel, []. cbn [while_true]. rewrite state_eta.
    split; [reflexivity|]. intros j ev Hj; discriminate Hj.
  - cbn [while_true].
    destruct (for_each_earlier messages s) as (r1 & evs1 & Hrun1 & Hearlier1 & Hall1).
    destruct r1 as [[]|e|].
    + rewrite (bind_ret _ _ _ _ _ Hrun1).
      destruct (IH {| environ := environ s; trace := trace s ++ evs1 |})
        as (r & evs & Hrun & Hearlier).
      exists r, (evs1 ++ evs). rewrite Hrun. cbn [environ trace].
      rewrite <- app_assoc. split; [reflexivity|].
      apply earlier_calls_returned_app; auto.
    + rewrite (bind_raise _ _ _ _ _ Hrun1). now exists (Raise e), evs1.
    + unfold bind. rewrite Hrun1. now exists OutOfFuel, evs1.
Qed.

(** In the undisturbed run a "Sent message" line for [m] comes right
    after the send of [m]. *)
Lemma blocks_sent_line_after_send messages i m :
  flat_map blk messages !! S i
  = Some (ELog INFO ("Sent message to topic '" +:+ Py.str topic +:+ "': " +:+ m)) ->
  flat_map blk messages !! i = Some (ESend producer topic m).
Proof.
  revert i. induction messages as [|x l IH]; intros i Hi; [discriminate Hi|].
  cbn [flat_map] in *.
  destruct i as [|[|[|[|i]]]]; try discriminate Hi.
  - cbn in Hi |- *. injection Hi as Hi.
    apply append_inj_r in Hi. apply append_inj_r in Hi. apply append_inj_r in Hi.
    now subst x.
  - destruct l as [|y l]; [discriminate Hi|]. cbn in Hi. discriminate Hi.
  - exact (IH i Hi).
Qed.

End Honest.

(** X6. The log does not claim more than happened: in every run of
    [generate_messages], a line "Sent message to topic '...': m" is only
    ever logged right after a send of that very [m], by the producer and to
    the topic of the call, that has returned.  A send that fails or is
    interrupted is never logged as sent. *)
Theorem sent_line_only_after_returned_send w messages fuel producer topic
    interval_secs s i m :
  let tr := since s (snd (generate_messages_over w messages fuel producer topic
                            interval_secs s)) in
  tr !! S i
  = Some (ELog INFO ("Sent message to topic '" +:+ Py.str topic +:+ "': " +:+ m)) ->
  tr !! i = Some (ESend producer topic m) /\
  call_outcome w (length (trace s) + i) = Returns tt.
Proof.
  intros tr. subst tr.
  destruct (emission_run w producer topic interval_secs messages fuel s)
    as (r1 & evs1 & Hrun & Hpre & Hend).
  destruct (emission_earlier w producer topic interval_secs messages fuel s)
    as (r1' & evs1' & Hrun' & Hearlier).
  rewrite Hrun in Hrun'. injection Hrun' as <- Heq.
  apply app_inv_head in Heq. subst evs1'.
  destruct r1 as [[]|e|]; cbn [emission_end] in Hend; [destruct Hend| |].
  - rewrite (generate_messages_over_raise _ _ _ _ _ _ _ _ _ Hrun).
    cbn [snd environ trace]. rewrite <- app_assoc.
    erewrite since_app by reflexivity.
    intros Hline.
    destruct (decide (S i < length evs1)%nat) as [Hlt|Hge].
    + rewrite lookup_app_l in Hline by exact Hlt.
      rewrite lookup_app_l by lia.
      pose proof (prefix_lookup_Some _ _ _ _ Hline Hpre) as Hideal.
      apply blocks_sent_line_after_send in Hideal.
      destruct (lookup_lt_is_Some_2 evs1 i) as [ev Hev]; [lia|].
      pose proof (prefix_lookup_Some _ _ _ _ Hev Hpre) as Hideal'.
      rewrite Hideal in Hideal'. injection Hideal' as <-.
      split; [exact Hev|]. exact (Hearlier i _ Hev eq_refl Hlt).
    + exfalso. rewrite lookup_app_r in Hline by lia.
      unfold epilogue in Hline.
      destruct (call_outcome w _) as [[]|e'], e as [|c|cls text];
        cbn [snd app] in Hline;
        destruct (S i - length evs1)%nat as [|[|[|k]]];
        cbn in Hline; discriminate Hline.
  - rewrite (generate_messages_over_out_of_fuel _ _ _ _ _ _ _ _ Hrun).
    cbn [snd]. erewrite since_app by reflexivity.
    destruct Hend as [-> Hcalls]. intros Hline.
    apply blocks_sent_line_after_send in Hline.
    split; [exact Hline|]. exact (Hcalls i _ Hline eq_refl).
Qed.

Lemma sent_line_only_after_returned_send_witness :
  since (start ∅)
    (snd (generate_messages_over (failing_at 5 timed_out) abc 2 1%nat
            (PStr "buzz_topic") 10 (start ∅))) !! 2%nat
  = Some (ELog INFO "Sent message to topic 'buzz_topic': a") /\
  call_outcome (failing_at 5 timed_out) 1 = Returns tt.
Proof.
  split; [reflexivity|].
  exact (proj2 (sent_line_only_after_returned_send (failing_at 5 timed_out) abc 2
                  1%nat (PStr "buzz_topic") 10 (start ∅) 1%nat "a" eq_refl)).
Defined.

(** ** The orchestrator, path by path *)

(** [main] once all four startup steps have succeeded: the run of the
    loop, and the closing line when the loop returns. *)
Lemma main_run_in_loop w fuel env z producer :
  verify_services_outcome w = Returns tt ->
  resolved_interval (env ∪ dotenv_file w) = Returns z ->
  create_kafka_producer_outcome w = Returns (Some producer) ->
  create_kafka_topic_outcome w (resolved_topic (env ∪ dotenv_file w)) = Returns tt ->
  let topic := resolved_topic (env ∪ dotenv_file w) in
  let s0 := {| environ := env ∪ dotenv_file w; trace := upto_loop topic z |} in
  exists r evs,
    generate_messages w fuel producer topic z s0 =
      (r, {| environ := env ∪ dotenv_file w; trace := upto_loop topic z ++ evs |}) /\
    main w fuel (start env) =
      (r, {| environ := env ∪ dotenv_file w;
             trace := upto_loop topic z ++ evs ++
                      match r with
                      | Ret _ => [ELog INFO "END producer."]
                      | _ => []
                      end |}).
Proof.
  intros Hverify Hinterval Hproducer Htopic topic s0. subst topic s0.
  rewrite main_run. cbn zeta. rewrite Hverify, Hinterval, Hproducer, Htopic.
  unfold generate_messages.
  destruct (generate_messages_over_events w producer
              (resolved_topic (env ∪ dotenv_file w)) z string_list fuel
              {| environ := env ∪ dotenv_file w;
                 trace := upto_loop (resolved_topic (env ∪ dotenv_file w)) z |})
    as (r & evs & Hrun & _).
  cbn [trace environ] in Hrun. rewrite Hrun.
  exists r, evs. split; [reflexivity|].
  destruct r as [[]|e|]; cbn [record trace environ]; rewrite ?app_nil_r, <- ?app_assoc;
    reflexivity.
Qed.

(** Rewrites [main] along the startup path the hypotheses in scope
    describe. *)
Ltac along_startup :=
  rewrite main_run in *; cbn zeta in *;
  repeat match goal with
         | H : verify_services_outcome _ = _ |- _ => rewrite H in *
         | H : resolved_interval _ = _ |- _ => rewrite H in *
         | H : create_kafka_producer_outcome _ = _ |- _ => rewrite H in *
         | H : create_kafka_topic_outcome _ (resolved_topic _) = _ |- _ =>
             rewrite H in *
         end;
  cbn [fst snd trace environ] in *.

Lemma blocks_no_end_line producer topic interval_secs messages :
  ~ In (ELog INFO "END producer.")
      (flat_map (block producer topic interval_secs) messages).
Proof.
  intros Hin. apply in_flat_map in Hin as (m & _ & Hin).
  cbn in Hin. destruct Hin as [H|[H|[H|[H|[]]]]]; discriminate H.
Qed.

(** The loop never logs the closing line of [main]. *)
Lemma loop_no_end_line w producer topic interval_secs messages fuel s r evs :
  generate_messages_over w messages fuel producer topic interval_secs s =
    (r, {| environ := environ s; trace := trace s ++ evs |}) ->
  ~ In (ELog INFO "END producer.") evs.
Proof.
  intros Hrun' Hin.
  destruct (generate_messages_over_run w producer topic interval_secs messages fuel s)
    as (r0 & evs0 & Hrun & Hshape).
  rewrite Hrun' in Hrun. injection Hrun as <- Heq. apply app_inv_head in Heq.
  subst evs0.
  destruct Hshape as [(_ & -> & _) | (loop_evs & e & [k Hpre] & _ & _ & ->)].
  - now apply blocks_no_end_line in Hin.
  - apply in_app_or in Hin as [Hin|Hin].
    + apply (blocks_no_end_line producer topic interval_secs (cycle fuel messages)).
      rewrite Hpre. apply in_or_app. now left.
    + unfold epilogue in Hin.
      destruct (call_outcome w _) as [[]|e'], e as [|c|cls text]; cbn in Hin;
        repeat (destruct Hin as [Hin|Hin]; [discriminate Hin|]); destruct Hin.
Qed.

(** A loop that returns has closed its producer as its last call but one. *)
Lemma loop_return_shape w producer topic interval_secs messages fuel s evs :
  generate_messages_over w messages fuel producer topic interval_secs s =
    (Ret tt, {| environ := environ s; trace := trace s ++ evs |}) ->
  closes evs = [EClose producer] /\
  exists before,
    evs = before ++ [EClose producer; ELog INFO "Kafka producer closed."].
Proof.
  intros Hrun'.
  destruct (generate_messages_over_run w producer topic interval_secs messages fuel s)
    as (r0 & evs0 & Hrun & Hshape).
  rewrite Hrun' in Hrun. injection Hrun as <- Heq. apply app_inv_head in Heq.
  subst evs0.
  destruct Hshape as [(Hr & _) | (loop_evs & e & Hpre & _ & Hr & ->)];
    [discriminate Hr|].
  split.
  - rewrite closes_app, epilogue_closes.
    now rewrite (closes_prefix_nil _ _ Hpre (closes_blocks _ _ _ _)).
  - cbn zeta in Hr. unfold epilogue in *.
    destruct (call_outcome w _) as [[]|e']; cbn [fst snd] in *;
      [|discriminate Hr].
    eexists (loop_evs ++ _). rewrite <- app_assoc. reflexivity.
Qed.

(** X7. [main] sends nothing before its startup is complete: whenever a
    send shows in its trace, the service check has returned, the interval
    was read as a number, a producer was acquired and the topic creation
    has returned; the send is made by that producer, to the topic as
    resolved, and its value is an entry of the message list. *)
Theorem main_sends_only_after_startup w fuel env p t m :
  In (ESend p t m) (trace (snd (main w fuel (start env)))) ->
  verify_services_outcome w = Returns tt /\
  (exists z, resolved_interval (env ∪ dotenv_file w) = Returns z) /\
  create_kafka_producer_outcome w = Returns (Some p) /\
  t = resolved_topic (env ∪ dotenv_file w) /\
  create_kafka_topic_outcome w t = Returns tt /\
  In m string_list.
Proof.
  intros Hin.
  destruct (verify_services_outcome w) as [[]|e] eqn:Hverify;
    [|along_startup; no_such_event Hin].
  destruct (resolved_interval (env ∪ dotenv_file w)) as [z|e] eqn:Hinterval;
    [|along_startup; no_such_event Hin].
  destruct (create_kafka_producer_outcome w) as [[producer|]|e] eqn:Hproducer;
    [| along_startup; no_such_event Hin ..].
  destruct (create_kafka_topic_outcome w (resolved_topic (env ∪ dotenv_file w)))
    as [[]|e] eqn:Htopic;
    [|along_startup; destruct e; no_such_event Hin].
  destruct (main_run_in_loop w fuel env z producer Hverify Hinterval Hproducer
              Htopic) as (r & evs & Hloop & Hmain).
  rewrite Hmain in Hin. cbn [snd trace] in Hin.
  apply in_app_or in Hin as [Hin|Hin]; [no_such_event Hin|].
  apply in_app_or in Hin as [Hin|Hin];
    [|destruct r as [[]|e|]; no_such_event Hin].
  pose proof (sends_follow_the_list w producer
                (resolved_topic (env ∪ dotenv_file w)) z string_list fuel
                {| environ := env ∪ dotenv_file w;
                   trace := upto_loop (resolved_topic (env ∪ dotenv_file w)) z |})
    as Hsent.
  destruct (generate_messages_over_events w producer
              (resolved_topic (env ∪ dotenv_file w)) z string_list fuel
              {| environ := env ∪ dotenv_file w;
                 trace := upto_loop (resolved_topic (env ∪ dotenv_file w)) z |})
    as (r' & evs' & Hrun & Hall).
  unfold generate_messages in Hloop. rewrite Hloop in Hrun, Hsent.
  injection Hrun as <- Heq. subst evs'. cbn [snd] in Hsent. erewrite since_app in Hsent by reflexivity.
  rewrite Forall_forall in Hall. apply list_elem_of_In in Hin.
  destruct (Hall _ Hin) as [-> ->].
  repeat split; eauto.
  apply list_elem_of_In. apply (cycle_elem _ fuel).
  eapply elem_of_prefix; [|exact Hsent].
  unfold sent. apply list_elem_of_omap.
  now exists (ESend producer (resolved_topic (env ∪ dotenv_file w)) m).
Qed.

Lemma main_sends_only_after_startup_witness :
  In (ESend 1%nat (PStr "buzz_topic") "I give up")
    (trace (snd (main calm 1 (start ∅)))) /\
  create_kafka_producer_outcome calm = Returns (Some 1%nat) /\
  In "I give up" string_list.
Proof.
  assert (Hin : In (ESend 1%nat (PStr "buzz_topic") "I give up")
                  (trace (snd (main calm 1 (start ∅)))))
    by (vm_compute; tauto).
  split; [exact Hin|].
  pose proof (main_sends_only_after_startup calm 1%nat ∅ _ _ _ Hin)
    as (_ & _ & Hp & _ & _ & Hm).
  split; [exact Hp | exact Hm].
Defined.

Lemma from_loop_filter producer topic interval_secs evs :
  Forall (from_loop producer topic interval_secs) evs ->
  List.filter is_getenv evs = [] /\ List.filter is_create_topic evs = [].
Proof.
  induction 1 as [|ev evs Hev _ [IH1 IH2]]; [split; reflexivity|].
  destruct ev; cbn [from_loop] in Hev; try destruct Hev; cbn; auto.
Qed.

(** X8. [main] logs "END producer." exactly when it returns normally,
    and it returns normally only after the loop has closed the producer:
    the trace then ends with the close of the acquired producer, the line
    "Kafka producer closed." and the line "END producer.", and holds no
    other close. *)
Theorem normal_return_means_closed w fuel env :
  let run := main w fuel (start env) in
  (fst run = Ret tt <-> In (ELog INFO "END producer.") (trace (snd run))) /\
  (fst run = Ret tt ->
   exists p before,
     create_kafka_producer_outcome w = Returns (Some p) /\
     trace (snd run) =
       before ++ [EClose p; ELog INFO "Kafka producer closed.";
                  ELog INFO "END producer."] /\
     closes (trace (snd run)) = [EClose p]).
Proof.
  intros run. subst run.
  destruct (verify_services_outcome w) as [[]|e] eqn:Hverify;
    [|along_startup; split; [split; [discriminate | intros Hin; no_such_event Hin]
                            | discriminate]].
  destruct (resolved_interval (env ∪ dotenv_file w)) as [z|e] eqn:Hinterval;
    [|along_startup; split; [split; [discriminate | intros Hin; no_such_event Hin]
                            | discriminate]].
  destruct (create_kafka_producer_outcome w) as [[producer|]|e] eqn:Hproducer;
    [| along_startup; (split; [split; [discriminate | intros Hin; no_such_event Hin]
                              | discriminate]) ..].
  destruct (create_kafka_topic_outcome w (resolved_topic (env ∪ dotenv_file w)))
    as [[]|e] eqn:Htopic;
    [|along_startup; destruct e;
      (split; [split; [discriminate | intros Hin; no_such_event Hin]
              | discriminate])].
  destruct (main_run_in_loop w fuel env z producer Hverify Hinterval Hproducer
              Htopic) as (r & evs & Hloop & Hmain).
  rewrite Hmain. cbn [fst snd trace]. unfold generate_messages in Hloop.
  pose proof (loop_no_end_line w producer _ z string_list fuel
                {| environ := env ∪ dotenv_file w;
                   trace := upto_loop (resolved_topic (env ∪ dotenv_file w)) z |}
                r evs Hloop) as Hnone.
  destruct r as [[]|e|].
  - split.
    + split; [intros _|reflexivity].
      apply in_or_app. right. apply in_or_app. right. now left.
    + intros _. exists producer.
      destruct (loop_return_shape w producer _ z string_list fuel
                  {| environ := env ∪ dotenv_file w;
                     trace := upto_loop (resolved_topic (env ∪ dotenv_file w)) z |}
                  evs Hloop) as (Hcloses & before & ->).
      exists (upto_loop (resolved_topic (env ∪ dotenv_file w)) z ++ before).
      split; [reflexivity|]. split.
      * rewrite <- !app_assoc. reflexivity.
      * do 2 rewrite closes_app. rewrite Hcloses. reflexivity.
  - split; [|discriminate]. split; [discriminate|].
    rewrite app_nil_r. intros Hin.
    apply in_app_or in Hin as [Hin|Hin]; [no_such_event Hin | contradiction].
  - split; [|discriminate]. split; [discriminate|].
    rewrite app_nil_r. intros Hin.
    apply in_app_or in Hin as [Hin|Hin]; [no_such_event Hin | contradiction].
Qed.

Lemma normal_return_means_closed_witness :
  fst (main (failing_at 15 KeyboardInterrupt) 1 (start ∅)) = Ret tt /\
  closes (trace (snd (main (failing_at 15 KeyboardInterrupt) 1 (start ∅))))
  = [EClose 1%nat].
Proof.
  assert (Hret : fst (main (failing_at 15 KeyboardInterrupt) 1 (start ∅)) = Ret tt)
    by (vm_compute; reflexivity).
  split; [exact Hret|].
  destruct (proj2 (normal_return_means_closed (failing_at 15 KeyboardInterrupt)
                     1%nat ∅) Hret) as (p & before & Hp & _ & Hcloses).
  injection Hp as <-. exact Hcloses.
Defined.

(** X9. A failing service check is fatal and is not handled: [main] ends
    with the very exception [verify_services] raised, after the two
    startup log lines and [load_dotenv]; it has read no variable, acquired
    no producer and logged nothing about the failure. *)
Theorem failed_verification_is_fatal w fuel env e :
  verify_services_outcome w = Raises e ->
  main w fuel (start env) =
    (Raise e, {| environ := env ∪ dotenv_file w; trace := boot |}).
Proof. intros Hverify. along_startup. reflexivity. Qed.

Lemma failed_verification_is_fatal_witness :
  verify_services_outcome services_down = Raises (SystemExit 2) /\
  main services_down 1 (start ∅) = (Raise (SystemExit 2), {| environ := ∅ ∪ ∅; trace := boot |}).
Proof.
  split; [reflexivity|].
  exact (failed_verification_is_fatal services_down 1%nat ∅ (SystemExit 2) eq_refl).
Defined.

(** X10. Only a producer that comes back as [None] leads to exit code
    3: when [create_kafka_producer] raises instead, [main] ends with that
    exception, unhandled; the acquisition is its last call, so no error
    line is logged and no topic is created. *)
Theorem producer_exception_propagates w fuel env e :
  let run := main w fuel (start env) in
  In ECreateProducer (trace (snd run)) ->
  create_kafka_producer_outcome w = Raises e ->
  fst run = Raise e /\
  exists before, trace (snd run) = before ++ [ECreateProducer].
Proof.
  intros run. subst run. intros Hin Hraises.
  destruct (verify_services_outcome w) as [[]|e0] eqn:Hverify;
    [|along_startup; no_such_event Hin].
  destruct (resolved_interval (env ∪ dotenv_file w)) as [z|e0] eqn:Hinterval;
    [|along_startup; no_such_event Hin].
  along_startup. split; [reflexivity|].
  eexists (boot ++ config_events _ ++ [_]). reflexivity.
Qed.

Lemma producer_exception_propagates_witness :
  In ECreateProducer (trace (snd (main producer_raises 1 (start ∅)))) /\
  fst (main producer_raises 1 (start ∅))
  = Raise (Exception "NoBrokersAvailable" "no brokers").
Proof.
  assert (Hin : In ECreateProducer (trace (snd (main producer_raises 1 (start ∅)))))
    by (vm_compute; tauto).
  split; [exact Hin|].
  exact (proj1 (producer_exception_propagates producer_raises 1%nat ∅ _ Hin eq_refl)).
Defined.

(** X11. The handler around the topic creation only catches class
    [Exception]: when [create_kafka_topic] is interrupted or ends in an
    exit request, [main] ends with that very exception, not with exit code
    1, and logs nothing about it; the topic creation is its last call. *)
Theorem topic_exit_request_propagates w fuel env t e :
  let run := main w fuel (start env) in
  In (ECreateTopic t) (trace (snd run)) ->
  create_kafka_topic_outcome w t = Raises e ->
  (forall cls text, e <> Exception cls text) ->
  fst run = Raise e /\
  exists before, trace (snd run) = before ++ [ECreateProducer; ECreateTopic t].
Proof.
  intros run. subst run. intros Hin Hraises Hclass.
  destruct (verify_services_outcome w) as [[]|e0] eqn:Hverify;
    [|along_startup; no_such_event Hin].
  destruct (resolved_interval (env ∪ dotenv_file w)) as [z|e0] eqn:Hinterval;
    [|along_startup; no_such_event Hin].
  destruct (create_kafka_producer_outcome w) as [[producer|]|e0] eqn:Hproducer;
    [| along_startup; no_such_event Hin ..].
  destruct (create_kafka_topic_outcome w (resolved_topic (env ∪ dotenv_file w)))
    as [[]|e0] eqn:Htopic.
  - destruct (main_trace_in_loop w fuel env z producer Hverify Hinterval
                Hproducer Htopic) as (evs & Htrace & Hevs).
    rewrite Htrace in Hin. apply in_app_or in Hin as [Hin|Hin].
    + cbn in Hin.
      repeat (destruct Hin as [Hin|Hin]; [try discriminate Hin|]); [|destruct Hin].
      injection Hin as <-. congruence.
    + now apply from_loop_no_create_topic with (t := t) in Hevs.
  - along_startup.
    assert (t = resolved_topic (env ∪ dotenv_file w)) as ->.
    { destruct e0;
        (cbn in Hin;
         repeat (destruct Hin as [Hin|Hin]; [try discriminate Hin|]);
         [now injection Hin | destruct Hin]). }
    rewrite Hraises in Htopic. injection Htopic as <-.
    destruct e as [|c|cls text]; [| |now destruct (Hclass cls text)];
      cbn [fst snd trace]; (split; [reflexivity|]);
      eexists (boot ++ config_events _ ++ [_]); reflexivity.
Qed.

Lemma topic_exit_request_propagates_witness :
  In (ECreateTopic (PStr "buzz_topic")) (trace (snd (main topic_exits 1 (start ∅)))) /\
  fst (main topic_exits 1 (start ∅)) = Raise (SystemExit 1).
Proof.
  assert (Hin : In (ECreateTopic (PStr "buzz_topic"))
                  (trace (snd (main topic_exits 1 (start ∅)))))
    by (vm_compute; tauto).
  split; [exact Hin|].
  refine (proj1 (topic_exit_request_propagates topic_exits 1%nat ∅ _ (SystemExit 1)
                   Hin eq_refl _)).
  intros cls text. discriminate.
Defined.

(** X12. When every startup step succeeds and no send or wait ever
    fails, [main] never ends: after any number of passes it is still in
    the loop, and its trace is the startup followed by one block (log
    line, send, log line, wait) per entry of the message list, pass after
    pass, sent by the acquired producer to the topic as resolved, with
    waits of the interval as resolved.  No close and no "END producer."
    line happen. *)
Theorem main_when_everything_works w fuel env z producer :
  verify_services_outcome w = Returns tt ->
  resolved_interval (env ∪ dotenv_file w) = Returns z ->
  create_kafka_producer_outcome w = Returns (Some producer) ->
  create_kafka_topic_outcome w (resolved_topic (env ∪ dotenv_file w)) = Returns tt ->
  failure_free w ->
  main w fuel (start env) =
    (OutOfFuel,
     {| environ := env ∪ dotenv_file w;
        trace := upto_loop (resolved_topic (env ∪ dotenv_file w)) z ++
                 flat_map (block producer (resolved_topic (env ∪ dotenv_file w)) z)
                   (cycle fuel string_list) |}).
Proof.
  intros Hverify Hinterval Hproducer Htopic Hfree.
  rewrite main_run. cbn zeta. rewrite Hverify, Hinterval, Hproducer, Htopic.
  unfold generate_messages.
  now rewrite (generate_messages_over_failure_free w producer _ z string_list fuel
                 _ Hfree).
Qed.

Lemma main_when_everything_works_witness :
  failure_free calm /\
  fst (main calm 1 (start ∅)) = OutOfFuel /\
  closes (trace (snd (main calm 1 (start ∅)))) = [].
Proof.
  split; [intros i; reflexivity|].
  rewrite (main_when_everything_works calm 1%nat ∅ 10 1%nat);
    [split | reflexivity | reflexivity | reflexivity | reflexivity
     | intros i; reflexivity].
  - reflexivity.
  - vm_compute. reflexivity.
Defined.

(** X13. [main] asks for the topic at most once, and only with a
    producer in hand: whenever a topic creation shows in its trace, a
    producer was acquired before it, the topic asked for is the one
    resolved from the environment, and it is the only topic creation of the
    run. *)
Theorem topic_creation_follows_acquisition w fuel env t :
  let tr := trace (snd (main w fuel (start env))) in
  In (ECreateTopic t) tr ->
  (exists p, create_kafka_producer_outcome w = Returns (Some p)) /\
  t = resolved_topic (env ∪ dotenv_file w) /\
  List.filter is_create_topic tr = [ECreateTopic t] /\
  precedes is_create_producer is_create_topic tr = true.
Proof.
  intros tr. subst tr. intros Hin.
  destruct (verify_services_outcome w) as [[]|e0] eqn:Hverify;
    [|along_startup; no_such_event Hin].
  destruct (resolved_interval (env ∪ dotenv_file w)) as [z|e0] eqn:Hinterval;
    [|along_startup; no_such_event Hin].
  destruct (create_kafka_producer_outcome w) as [[producer|]|e0] eqn:Hproducer;
    [| along_startup; no_such_event Hin ..].
  split; [now exists producer|].
  destruct (create_kafka_topic_outcome w (resolved_topic (env ∪ dotenv_file w)))
    as [[]|e0] eqn:Htopic.
  - destruct (main_trace_in_loop w fuel env z producer Hverify Hinterval
                Hproducer Htopic) as (evs & Htrace & Hevs).
    rewrite Htrace in *.
    assert (t = resolved_topic (env ∪ dotenv_file w)) as ->.
    { apply in_app_or in Hin as [Hin|Hin].
      - cbn in Hin.
        repeat (destruct Hin as [Hin|Hin]; [try discriminate Hin|]);
          [now injection Hin | destruct Hin].
      - now apply from_loop_no_create_topic with (t := t) in Hevs. }
    split; [reflexivity|]. split; [|reflexivity].
    rewrite List.filter_app.
    destruct (from_loop_filter _ _ _ _ Hevs) as [_ ->]. reflexivity.
  - along_startup.
    assert (t = resolved_topic (env ∪ dotenv_file w)) as ->.
    { destruct e0;
        (cbn in Hin;
         repeat (destruct Hin as [Hin|Hin]; [try discriminate Hin|]);
         [now injection Hin | destruct Hin]). }
    destruct e0; repeat split.
Qed.

Lemma topic_creation_follows_acquisition_witness :
  In (ECreateTopic (PStr "buzz_topic")) (trace (snd (main calm 1 (start ∅)))) /\
  List.filter is_create_topic (trace (snd (main calm 1 (start ∅))))
  = [ECreateTopic (PStr "buzz_topic")].
Proof.
  assert (Hin : In (ECreateTopic (PStr "buzz_topic"))
                  (trace (snd (main calm 1 (start ∅)))))
    by (vm_compute; tauto).
  split; [exact Hin|].
  exact (proj1 (proj2 (proj2 (topic_creation_follows_acquisition calm 1%nat ∅ _ Hin)))).
Defined.

(** X14. The configuration is read once, at startup: in every execution
    of [main] in which the service check returns, the environment is read
    exactly twice, first for the topic and then for the interval, and never
    again while messages are produced; when the check fails it is not read
    at all. *)
Theorem configuration_read_once w fuel env :
  List.filter is_getenv (trace (snd (main w fuel (start env)))) =
    match verify_services_outcome w with
    | Returns _ => [EGetenv "KAFKA_TOPIC"; EGetenv "MESSAGE_INTERVAL_SECONDS"]
    | Raises _ => []
    end.
Proof.
  destruct (verify_services_outcome w) as [[]|e0] eqn:Hverify;
    [|along_startup; reflexivity].
  destruct (resolved_interval (env ∪ dotenv_file w)) as [z|e0] eqn:Hinterval;
    [|along_startup; reflexivity].
  destruct (create_kafka_producer_outcome w) as [[producer|]|e0] eqn:Hproducer;
    [| along_startup; reflexivity ..].
  destruct (create_kafka_topic_outcome w (resolved_topic (env ∪ dotenv_file w)))
    as [[]|e0] eqn:Htopic; [|along_startup; destruct e0; reflexivity].
  destruct (main_trace_in_loop w fuel env z producer Hverify Hinterval
              Hproducer Htopic) as (evs & -> & Hevs).
  rewrite List.filter_app.
  destruct (from_loop_filter _ _ _ _ Hevs) as [-> _]. reflexivity.
Qed.
